(** * Project dashboard: the data pipeline of [dashboard.py]

    A shallow embedding of the data-processing functions of the dashboard
    ([load_and_clean_data], [calculate_kpis], [get_area_analysis],
    [get_status_distribution], [prepare_cost_comparison_data],
    [format_currency], [format_percentage]) together with the pandas
    operations they are built from.

    Modelling choices.
    - A pandas table is the list of its rows, in row order; a column is the
      list of one field.
    - A [float64] is an exact rational extended with the two infinities and
      NaN.  Arithmetic follows IEEE 754 on the special values (x/0, inf-inf,
      NaN propagation); the rounding error of binary64, its overflow and the
      sign of zero are abstracted.  The end-to-end scenario, which names the
      numbers the code returns, is therefore evaluated on the binary64
      numbers themselves (module [B64], which gives the loader and
      [calculate_kpis] on the primitive floats), and the equalities between
      sums taken in different groupings are stated for whole numbers small
      enough for every sum to be exact ([exact_whole]).
    - A missing cell (None, NaN) of a text column is [None]; identifiers,
      departments and statuses are texts.
    - The loader starts from the table [read_csv] returned; an exception
      is a [Raise] result.
    - The aggregation functions are given twice: as functions of the table,
      statement by statement, and as programs on a store of objects in
      which the assignments of the source overwrite in place.
    - Of the presentation functions, the choice of the status shown on the
      second card of [display_kpi_cards] is modelled; the calls that draw
      widgets and charts are not.
    - The date columns are parsed by the loader and read by no aggregation;
      they are left out. *)

From Stdlib Require Import QArith Qcanon ZArith String Ascii DecimalString.
From Stdlib Require PrimFloat FloatOps Uint63.
From stdpp Require Import gmap strings list fin_maps numbers sorting.

Local Open Scope string_scope.

(* ===================================================================== *)
(** * Numbers *)
(* ===================================================================== *)

Inductive float64 :=
  | Finite (q : Qc)
  | PosInf
  | NegInf
  | NaN.

Definition of_Z (z : Z) : float64 := Finite (Q2Qc (inject_Z z)).
Definition of_nat (n : nat) : float64 := of_Z (Z.of_nat n).

Definition pow10 (k : nat) : Qc := Q2Qc (inject_Z (10 ^ Z.of_nat k)).

(** [dec m k] is the decimal number m / 10^k: [dec 1234 2] is 12.34. *)
Definition dec (m : Z) (k : nat) : float64 :=
  Finite (Q2Qc (inject_Z m) / pow10 k)%Qc.

Definition zero : float64 := of_Z 0.

Global Instance float64_eq_dec : EqDecision float64.
Proof. solve_decision. Defined.

Definition is_finite (x : float64) : bool :=
  match x with Finite _ => true | _ => false end.

(** The sign of a finite number; zero counts as positive. *)
Definition nonneg (q : Qc) : bool := bool_decide (0 <= q)%Qc.

Definition fneg (x : float64) : float64 :=
  match x with
  | Finite q => Finite (- q)%Qc
  | PosInf => NegInf
  | NegInf => PosInf
  | NaN => NaN
  end.

Definition fadd (x y : float64) : float64 :=
  match x, y with
  | NaN, _ | _, NaN => NaN
  | PosInf, NegInf | NegInf, PosInf => NaN
  | PosInf, _ | _, PosInf => PosInf
  | NegInf, _ | _, NegInf => NegInf
  | Finite a, Finite b => Finite (a + b)%Qc
  end.

Definition fsub (x y : float64) : float64 := fadd x (fneg y).

Definition fmul (x y : float64) : float64 :=
  match x, y with
  | NaN, _ | _, NaN => NaN
  | Finite a, Finite b => Finite (a * b)%Qc
  | Finite a, inf | inf, Finite a =>
      if bool_decide (a = 0%Qc) then NaN
      else if nonneg a then inf else fneg inf
  | PosInf, PosInf | NegInf, NegInf => PosInf
  | PosInf, NegInf | NegInf, PosInf => NegInf
  end.

Definition fdiv (x y : float64) : float64 :=
  match x, y with
  | NaN, _ | _, NaN => NaN
  | Finite a, Finite b =>
      if bool_decide (b = 0%Qc) then
        if bool_decide (a = 0%Qc) then NaN
        else if nonneg a then PosInf else NegInf
      else Finite (a / b)%Qc
  | Finite _, _ => zero
  | inf, Finite b => if nonneg b then inf else fneg inf
  | _, _ => NaN
  end.

(** [x > y]; every comparison with NaN is false. *)
Definition fgt (x y : float64) : bool :=
  match x, y with
  | NaN, _ | _, NaN => false
  | Finite a, Finite b => bool_decide (b < a)%Qc
  | PosInf, PosInf | NegInf, _ | _, PosInf => false
  | PosInf, _ | _, NegInf => true
  end.

(** Round to the nearest integer, ties to the even one ([numpy.rint], and
    the rounding of Python's fixed-point formatting). *)
Definition rint (q : Qc) : Z :=
  let n := Qnum q in
  let d := Z.pos (Qden q) in
  let f := (n / d)%Z in
  match (2 * (n mod d) ?= d)%Z with
  | Lt => f
  | Gt => (f + 1)%Z
  | Eq => if Z.even f then f else (f + 1)%Z
  end.

Module np.

Definition isnan (x : float64) : bool :=
  match x with NaN => true | _ => false end.

(** [numpy.round(x, k)]: scale by 10^k, [rint], scale back. *)
Definition round (k : nat) (x : float64) : float64 :=
  match x with
  | Finite q => Finite (Q2Qc (inject_Z (rint (q * pow10 k))) / pow10 k)%Qc
  | _ => x
  end.

End np.

(* ===================================================================== *)
(** * Texts and the float parser *)
(* ===================================================================== *)

(** [c in s] for a one-character pattern ([Series.str.contains]). *)
Fixpoint contains (c : ascii) (s : string) : bool :=
  match s with
  | EmptyString => false
  | String a s' => if decide (a = c) then true else contains c s'
  end.

(** [s.replace(old, new)] for a one-character [old]. *)
Fixpoint replace (old : ascii) (new : string) (s : string) : string :=
  match s with
  | EmptyString => EmptyString
  | String a s' =>
      if decide (a = old) then new ++ replace old new s'
      else String a (replace old new s')
  end.

Definition is_space (a : ascii) : bool :=
  let n := nat_of_ascii a in
  bool_decide (n = 32 \/ 9 <= n <= 13)%nat.

Fixpoint lstrip (s : string) : string :=
  match s with
  | String a s' => if is_space a then lstrip s' else s
  | EmptyString => EmptyString
  end.

Definition strip (s : string) : string :=
  String.rev (lstrip (String.rev (lstrip s))).

Definition digit_of (a : ascii) : option Z :=
  let n := Z.of_nat (nat_of_ascii a) in
  if bool_decide (48 <= n <= 57)%Z then Some (n - 48)%Z else None.

(** Reads the longest prefix of digits: the number read so far, how many
    digits were read, and the rest of the text. *)
Fixpoint read_digits (s : string) (acc : Z) (cnt : nat) : Z * nat * string :=
  match s with
  | String a s' =>
      match digit_of a with
      | Some d => read_digits s' (10 * acc + d)%Z (S cnt)
      | None => (acc, cnt, s)
      end
  | EmptyString => (acc, cnt, s)
  end.

Definition lower (a : ascii) : ascii :=
  let n := nat_of_ascii a in
  if bool_decide (65 <= n <= 90)%nat then ascii_of_nat (n + 32) else a.

Fixpoint lowercase (s : string) : string :=
  match s with
  | EmptyString => EmptyString
  | String a s' => String (lower a) (lowercase s')
  end.

(** The exponent part [e[+-]digits] of a literal, or nothing at all. *)
Definition read_exponent (s : string) : option Z :=
  match s with
  | EmptyString => Some 0%Z
  | String a s' =>
      if decide (lower a = "e"%char) then
        let '(neg, s'') :=
          match s' with
          | String "-" t => (true, t)
          | String "+" t => (false, t)
          | _ => (false, s')
          end in
        match read_digits s'' 0 0 with
        | (e, S _, EmptyString) => Some (if neg then - e else e)%Z
        | _ => None
        end
      else None
  end.

(** An unsigned literal: digits with an optional fraction and exponent, or
    one of the names of the special values. *)
Definition unsigned_literal (s : string) : option float64 :=
  let l := lowercase s in
  if decide (l = "inf" \/ l = "infinity") then Some PosInf
  else if decide (l = "nan") then Some NaN
  else
    let '(i, ni, r1) := read_digits s 0 0 in
    let '(m, nf, r2) :=
      match r1 with
      | String "." t => read_digits t i 0
      | _ => (i, 0%nat, r1)
      end in
    if decide (ni + nf = 0)%nat then None
    else
      match read_exponent r2 with
      | Some e =>
          let q := (Q2Qc (inject_Z m) / pow10 nf)%Qc in
          Some (Finite (if decide (0 <= e)%Z then q * pow10 (Z.to_nat e)
                        else q / pow10 (Z.to_nat (- e)))%Qc)
      | None => None
      end.

(** Python's [float(s)] on a text, which [pandas.to_numeric] agrees with on
    decimal literals: surrounding blanks are dropped, then an optional sign
    and an unsigned literal must make up the whole text.  [None] is the
    parse failure ([ValueError] in [float], a coerced cell in
    [to_numeric]).  The literals read are those written with the digits 0-9:
    the underscores between digits and the digits of other scripts that
    [float] accepts are not read, and a literal beyond the range of
    binary64 stays a number. *)
Definition float_of_string (s : string) : option float64 :=
  match strip s with
  | String "-" t => fneg <$> unsigned_literal t
  | String "+" t => unsigned_literal t
  | t => unsigned_literal t
  end.

(* ===================================================================== *)
(** * Tables *)
(* ===================================================================== *)

(** A cell of a column that [read_csv] left untyped: missing, a text, or a
    number. *)
Inductive cell :=
  | CNull
  | CStr (s : string)
  | CNum (x : float64).

Module Raw.

(** One row of the table returned by [read_csv]. *)
Record row := mk {
  project_id : option string;
  area : option string;
  status : option string;
  conclusao : cell;
  valor : cell;
  custo_previsto : cell
}.

End Raw.

(** One row of the cleaned table: the raw columns and the three columns the
    cleaner adds. *)
Record row := mk_row {
  project_id : option string;
  area : option string;
  status : option string;
  conclusao : cell;
  valor : cell;
  custo_previsto : cell;
  conclusao_clean : float64;
  valor_clean : float64;
  custo_previsto_clean : float64
}.

Inductive exn := ValueError.

Inductive result (A : Type) :=
  | Ok (a : A)
  | Raise (e : exn).
Arguments Ok {A} a.
Arguments Raise {A} e.

Global Instance result_bind : MBind result := λ A B f r,
  match r with
  | Ok a => f a
  | Raise e => Raise e
  end.

(** [mapM]: the first failure aborts the whole column. *)
Fixpoint traverse {A B} (f : A -> result B) (l : list A) : result (list B) :=
  match l with
  | [] => Ok []
  | a :: l' => b ← f a; bs ← traverse f l'; Ok (b :: bs)
  end.

Module pd.

(** [Series.notna()] and [pandas.isna] on a text cell. *)
Definition notna {A} (x : option A) : bool :=
  match x with Some _ => true | None => false end.

(** [Series.fillna(v)] on one entry. *)
Definition fillna (v x : float64) : float64 :=
  if np.isnan x then v else x.

(** [pandas.to_numeric(_, errors='coerce')] on one cell: a number stays, a
    text is parsed, and what does not parse becomes NaN. *)
Definition to_numeric (c : cell) : float64 :=
  match c with
  | CNull => NaN
  | CNum x => x
  | CStr s => default NaN (float_of_string s)
  end.

(** [Series.sum()]: NaN entries are skipped, the empty sum is 0. *)
Definition sum (l : list float64) : float64 :=
  foldr fadd zero (filter (λ x, np.isnan x = false) l).

(** [Series.mean()]: NaN entries are skipped; NaN when nothing is left. *)
Definition mean (l : list float64) : float64 :=
  let vs := filter (λ x, np.isnan x = false) l in
  match vs with
  | [] => NaN
  | _ => fdiv (foldr fadd zero vs) (of_nat (length vs))
  end.

(** [Series.nunique()]: the number of distinct values, missing ones left
    out. *)
Definition nunique (l : list (option string)) : nat :=
  length (remove_dups (omap id l)).

(** [DataFrame.drop_duplicates(subset=[key])]: the first row of every key
    stays, in row order; missing keys count as one key. *)
Fixpoint drop_duplicates_from {R} (key : R -> option string)
    (seen : list (option string)) (df : list R) : list R :=
  match df with
  | [] => []
  | r :: df' =>
      if decide (key r ∈ seen) then drop_duplicates_from key seen df'
      else r :: drop_duplicates_from key (key r :: seen) df'
  end.

Definition drop_duplicates {R} (key : R -> option string) (df : list R) : list R :=
  drop_duplicates_from key [] df.

Definition str_le (a b : string) : Prop := String.leb a b = true.

Global Instance str_le_dec : RelDecision str_le.
Proof. intros a b. unfold str_le. apply _. Defined.

(** The group keys of [DataFrame.groupby(key)]: the distinct values of the
    key column in ascending order; rows with a missing key are in no
    group. *)
Definition group_keys {R} (key : R -> option string) (df : list R) : list string :=
  merge_sort str_le (remove_dups (omap key df)).

(** The rows of one group, in row order. *)
Definition group {R} (key : R -> option string) (k : string) (df : list R) : list R :=
  filter (λ r, key r = Some k) df.

(** [DataFrame.groupby(key)]: the groups with their keys. *)
Definition groupby {R} (key : R -> option string) (df : list R)
    : list (string * list R) :=
  fmap (λ k, (k, group key k df)) (group_keys key df).

(** Looking a label up in a series indexed by texts (index alignment of an
    assignment or of a left merge): NaN where the label is absent. *)
Fixpoint at_label (ser : list (string * float64)) (k : option string) : float64 :=
  match ser with
  | [] => NaN
  | (k', v) :: ser' => if decide (k = Some k') then v else at_label ser' k
  end.

(** [Series.count()]: the number of entries that are not missing. *)
Definition count (l : list (option string)) : nat :=
  length (omap id l).

(** [df.groupby(key)[col].nunique()], a series indexed by the group keys. *)
Definition groupby_nunique {R} (key col : R -> option string) (df : list R)
    : list (string * nat) :=
  fmap (λ kg, (kg.1, pd.nunique (col <$> kg.2))) (pd.groupby key df).

(** [df.groupby(key)[col].sum()], a series indexed by the group keys. *)
Definition groupby_sum {R} (key : R -> option string) (col : R -> float64)
    (df : list R) : list (string * float64) :=
  fmap (λ kg, (kg.1, pd.sum (col <$> kg.2))) (pd.groupby key df).

(** [Series.to_dict()]. *)
Definition to_dict {V} (ser : list (string * V)) : gmap string V :=
  list_to_map ser.

End pd.

(* ===================================================================== *)
(** * Loading and cleaning *)
(* ===================================================================== *)

(** The completion column, one cell.  A text holding a percent sign goes
    through [str.replace('%', '')], [str.replace(',', '.')],
    [astype(float)] (which raises on a text that is no number) and the
    division by 100; the result and every other cell then go through
    [to_numeric(errors='coerce')]. *)
Definition clean_conclusao (c : cell) : result float64 :=
  match c with
  | CStr s =>
      if contains "%" s then
        match float_of_string (replace "," "." (replace "%" "" s)) with
        | Some x => Ok (pd.to_numeric (CNum (fdiv x (of_Z 100))))
        | None => Raise ValueError
        end
      else Ok (pd.to_numeric c)
  | _ => Ok (pd.to_numeric c)
  end.

(** The cost columns, one cell: [to_numeric(errors='coerce').fillna(0)]. *)
Definition clean_cost (c : cell) : float64 :=
  pd.fillna zero (pd.to_numeric c).

(** The row filter [df['project_id'].notna() & (df['project_id'] != '')]. *)
Definition keep_row (r : Raw.row) : bool :=
  pd.notna (Raw.project_id r) && negb (bool_decide (Raw.project_id r = Some "")).

Definition clean_row (r : Raw.row) : result row :=
  c ← clean_conclusao (Raw.conclusao r);
  Ok {| project_id := Raw.project_id r;
        area := Raw.area r;
        status := Raw.status r;
        conclusao := Raw.conclusao r;
        valor := Raw.valor r;
        custo_previsto := Raw.custo_previsto r;
        conclusao_clean := c;
        valor_clean := clean_cost (Raw.valor r);
        custo_previsto_clean := clean_cost (Raw.custo_previsto r) |}.

(** [load_and_clean_data], from the table [read_csv] returned. *)
Definition load_and_clean_data (raw : list Raw.row) : result (list row) :=
  let df := filter (λ r, keep_row r = true) raw in
  traverse clean_row df.

(* ===================================================================== *)
(** * Aggregation *)
(* ===================================================================== *)

Record kpis := mk_kpis {
  total_projects : nat;
  status_counts : gmap string nat;
  avg_completion : float64;
  planned_costs : float64;
  actual_costs : float64;
  cost_variance : float64
}.

Definition calculate_kpis (df : list row) : kpis :=
  let total_projects := pd.nunique (project_id <$> df) in
  let status_counts := pd.to_dict (pd.groupby_nunique status project_id df) in
  let avg_completion := pd.mean (conclusao_clean <$> df) in
  let planned_costs :=
    pd.sum (custo_previsto_clean <$> pd.drop_duplicates project_id df) in
  let actual_costs := pd.sum (valor_clean <$> df) in
  {| total_projects := total_projects;
     status_counts := status_counts;
     avg_completion := if np.isnan avg_completion then zero else avg_completion;
     planned_costs := planned_costs;
     actual_costs := actual_costs;
     cost_variance :=
       if fgt planned_costs zero
       then fmul (fdiv (fsub actual_costs planned_costs) planned_costs) (of_Z 100)
       else zero |}.

Module Agg.

(** One row of [area_data] as the aggregation leaves it: the department is
    the index, the columns keep the names of the aggregated ones. *)
Record row := mk {
  area : string;
  project_id : nat;
  custo_previsto_clean : float64;
  conclusao_clean : float64
}.

End Agg.

Module Area.

(** One row of [area_data] once it has its fourth column, under the names
    the function gives the columns before it returns. *)
Record row := mk {
  area : string;
  qtd_projetos : nat;
  custo_previsto_total : float64;
  conclusao_media : float64;
  custo_real_total : float64
}.

End Area.

(** [.groupby('area').agg({'project_id': 'count',
    'custo_previsto_clean': 'sum', 'conclusao_clean': 'mean'})]. *)
Definition area_agg (t : list row) : list Agg.row :=
  fmap (λ kg, Agg.mk kg.1
               (pd.count (project_id <$> kg.2))
               (pd.sum (custo_previsto_clean <$> kg.2))
               (pd.mean (conclusao_clean <$> kg.2)))
      (pd.groupby area t).

(** [DataFrame.round(2)]: the float columns are rounded, the count is an
    integer column. *)
Definition round_agg (t : list Agg.row) : list Agg.row :=
  fmap (λ r, Agg.mk (Agg.area r) (Agg.project_id r)
              (np.round 2 (Agg.custo_previsto_clean r))
              (np.round 2 (Agg.conclusao_clean r))) t.

(** [area_data['custo_real'] = actual_costs_by_area]: the new column is
    aligned on the index. *)
Definition set_custo_real (t : list Agg.row) (ser : list (string * float64))
    : list Area.row :=
  fmap (λ r, Area.mk (Agg.area r) (Agg.project_id r)
              (Agg.custo_previsto_clean r) (Agg.conclusao_clean r)
              (pd.at_label ser (Some (Agg.area r)))) t.

Definition round_area (t : list Area.row) : list Area.row :=
  fmap (λ r, Area.mk (Area.area r) (Area.qtd_projetos r)
              (np.round 2 (Area.custo_previsto_total r))
              (np.round 2 (Area.conclusao_media r))
              (np.round 2 (Area.custo_real_total r))) t.

Definition get_area_analysis (df : list row) : list Area.row :=
  let area_data := round_agg (area_agg (pd.drop_duplicates project_id df)) in
  let actual_costs_by_area := pd.groupby_sum area valor_clean df in
  let area_data := set_custo_real area_data actual_costs_by_area in
  let area_data := round_area area_data in
  (* the renaming of the columns and [reset_index] keep every cell *)
  area_data.

(** The colours of the statuses the dashboard knows. *)
Definition known_colors : gmap string string :=
  {[ "em dia" := "#2E8B57"; "atrasado" := "#FF8C00"; "critico" := "#DC143C";
     "pausado" := "#708090"; "concluido" := "#4682B4"; "andamento" := "#3CB371" ]}.

(** The default colour, for a status the dashboard does not know. *)
Definition set_default_color (colors : gmap string string) (s : string)
    : gmap string string :=
  if decide (is_Some (colors !! s)) then colors else <[s := "#A9A9A9"]> colors.

Definition get_status_distribution (df : list row)
    : gmap string nat * gmap string string :=
  let counts := pd.groupby_nunique status project_id df in
  let status_counts := pd.to_dict counts in
  (* for status in status_counts: colours default to gray *)
  let status_colors :=
    foldl set_default_color known_colors counts.*1 in
  (status_counts, status_colors).

Module Planned.

(** One row of [planned]: three columns of the deduplicated table. *)
Record row := mk {
  project_id : option string;
  area : option string;
  custo_previsto_clean : float64
}.

End Planned.

Module Merged.

(** One row of [cost_comparison] as the merge leaves it. *)
Record row := mk {
  project_id : option string;
  area : option string;
  custo_previsto_clean : float64;
  custo_real_total : float64
}.

End Merged.

Module Cost.

(** One row of the table [prepare_cost_comparison_data] returns. *)
Record row := mk {
  project_id : option string;
  area : option string;
  custo_previsto_clean : float64;
  custo_real_total : float64;
  variance_percent : float64
}.

End Cost.

(** [df.drop_duplicates(subset=['project_id'])[['project_id', 'area',
    'custo_previsto_clean']]]. *)
Definition planned_of (df : list row) : list Planned.row :=
  fmap (λ r, Planned.mk (project_id r) (area r) (custo_previsto_clean r))
      (pd.drop_duplicates project_id df).

(** [planned.merge(actual, on='project_id', how='left')]: the keys of
    [actual] are distinct and none is missing, so every row of [planned]
    gives one row, with NaN where its project has no entry. *)
Definition merge_left (planned : list Planned.row)
    (actual : list (string * float64)) : list Merged.row :=
  fmap (λ p, Merged.mk (Planned.project_id p) (Planned.area p)
              (Planned.custo_previsto_clean p)
              (pd.at_label actual (Planned.project_id p))) planned.

(** [cost_comparison['custo_real_total'] =
    cost_comparison['custo_real_total'].fillna(0)]. *)
Definition fillna_real (t : list Merged.row) : list Merged.row :=
  fmap (λ m, Merged.mk (Merged.project_id m) (Merged.area m)
              (Merged.custo_previsto_clean m)
              (pd.fillna zero (Merged.custo_real_total m))) t.

Definition variance_of (real previsto : float64) : float64 :=
  np.round 2 (fmul (fdiv (fsub real previsto) previsto) (of_Z 100)).

(** [cost_comparison['variance_percent'] = (...).round(2)]. *)
Definition set_variance (t : list Merged.row) : list Cost.row :=
  fmap (λ m, Cost.mk (Merged.project_id m) (Merged.area m)
              (Merged.custo_previsto_clean m) (Merged.custo_real_total m)
              (variance_of (Merged.custo_real_total m)
                 (Merged.custo_previsto_clean m))) t.

Definition prepare_cost_comparison_data (df : list row) : list Cost.row :=
  let planned := planned_of df in
  let actual := pd.groupby_sum project_id valor_clean df in
  let cost_comparison := merge_left planned actual in
  let cost_comparison := fillna_real cost_comparison in
  set_variance cost_comparison.

(* ===================================================================== *)
(** * Formatting *)
(* ===================================================================== *)

Definition string_of_Z (n : Z) : string :=
  NilZero.string_of_uint (N.to_uint (Z.to_N n)).

(** Left padding with zeros up to a width. *)
Definition zfill (w : nat) (s : string) : string :=
  string_of_list_ascii (repeat "0"%char (w - String.length s)) ++ s.

(** The thousands separator of the format option [,]: a comma before every
    group of three digits, counted from the right. *)
Fixpoint group3 (rev_digits : list ascii) : list ascii :=
  match rev_digits with
  | a :: b :: c :: (_ :: _) as rest => a :: b :: c :: ","%char :: group3 rest
  | _ => rev_digits
  end.

Definition with_commas (s : string) : string :=
  string_of_list_ascii (rev (group3 (rev (list_ascii_of_string s)))).

(** Python's [format(x, ',.kf')] (with [commas]) and [format(x, '.kf')]:
    fixed point with [k] decimals, ties to even, the sign of the value in
    front. *)
Definition format_f (commas : bool) (k : nat) (x : float64) : string :=
  match x with
  | NaN => "nan"
  | PosInf => "inf"
  | NegInf => "-inf"
  | Finite q =>
      let a := if nonneg q then q else (- q)%Qc in
      let n := rint (a * pow10 k) in
      let p := (10 ^ Z.of_nat k)%Z in
      let ip := string_of_Z (n / p) in
      (if nonneg q then "" else "-")
      ++ (if commas then with_commas ip else ip)
      ++ (if k is O then "" else "." ++ zfill k (string_of_Z (n mod p)))
  end.

(** A Python value handed to a formatter: [None] is Python's [None]. *)
Definition isna (v : option float64) : bool :=
  match v with
  | None => true
  | Some x => np.isnan x
  end.

Definition format_currency (value : option float64) : string :=
  if isna value || bool_decide (value = Some zero) then "R$ 0,00"
  else
    replace "X" "." (replace "." "," (replace "," "X"
      ("R$ " ++ format_f true 2 (default NaN value)))).

Definition format_percentage (value : option float64) : string :=
  if isna value then "0,0%"
  else replace "." "," (format_f false 1 (default NaN value) ++ "%").

(* ===================================================================== *)
(** * The status card *)
(* ===================================================================== *)

(** [max(d, key=d.get)] over the items of a dictionary in insertion order:
    the first key among those with the largest value. *)
Fixpoint max_by_value (best : string * nat) (items : list (string * nat))
    : string * nat :=
  match items with
  | [] => best
  | kv :: items' =>
      max_by_value (if decide (best.2 < kv.2) then kv else best) items'
  end.

(** The status and the count [display_kpi_cards] shows on its second card;
    [None] is the branch of an empty dictionary, which shows "0". *)
Definition most_common_status (status_counts : list (string * nat))
    : option (string * nat) :=
  match status_counts with
  | [] => None
  | kv :: items => Some (max_by_value kv items)
  end.

(** The card of a table: the dictionary of [calculate_kpis] holds the items
    of the series [groupby('status')['project_id'].nunique()] in the order
    of the series. *)
Definition status_card (df : list row) : option (string * nat) :=
  most_common_status (pd.groupby_nunique status project_id df).

(* ===================================================================== *)
(** * The end-to-end scenario *)
(* ===================================================================== *)

Definition scenario : list Raw.row :=
  [ Raw.mk (Some "P1") (Some "A") (Some "em dia") (CStr "50%")
      (CNum (of_Z 400)) (CNum (of_Z 1000));
    Raw.mk (Some "P1") (Some "A") (Some "em dia") (CStr "50%")
      (CNum (of_Z 200)) (CNum (of_Z 1000));
    Raw.mk (Some "P2") (Some "B") (Some "atrasado") (CNum (dec 2 1))
      (CNum (of_Z 600)) (CNum (of_Z 500)) ].

Definition kpis_of (raw : list Raw.row) : result kpis :=
  df ← load_and_clean_data raw; Ok (calculate_kpis df).

(* ===================================================================== *)
(** * The loader and the indicators on binary64 numbers *)
(* ===================================================================== *)

(** The functions above compute with exact rationals.  Where a property
    names the very number the code returns, the loader and
    [calculate_kpis] are given again on binary64 numbers (the primitive
    floats), whose operations round to the nearest number, ties to even,
    as those of numpy do.  The texts, the row filter, the grouping and the
    counting are those of the functions above; a number cell of the raw
    table holds the decimal number as it is written, and [of_float64] takes
    it to the binary64 number it denotes. *)

Module B64.

Abbreviation float := PrimFloat.float.

Definition round_div (n d : Z) : Z :=
  let m := (n / d)%Z in
  match (2 * (n mod d) ?= d)%Z with
  | Lt => m
  | Gt => (m + 1)%Z
  | Eq => if Z.even m then m else (m + 1)%Z
  end.

(** The binary64 number nearest to n/d, for positive n and d: the quotient
    is scaled by a power of two to an integer of at most 53 bits (fewer in
    the subnormal range), rounded once, and scaled back, which is exact. *)
Definition nearest_pos (n d : Z) : float :=
  let scaled (e : Z) : Z * Z :=
    if decide (0 <= e)%Z then (n, d * 2 ^ e)%Z else (n * 2 ^ (- e), d)%Z in
  let e0 := (Z.log2 n - Z.log2 d - 52)%Z in
  let e1 := if decide ((scaled e0).1 / (scaled e0).2 < 2 ^ 52)%Z
            then (e0 - 1)%Z else e0 in
  let e := Z.max e1 (-1074) in
  FloatOps.Z.ldexp
    (PrimFloat.of_uint63 (Uint63.of_Z (round_div (scaled e).1 (scaled e).2))) e.

(** The binary64 number a decimal literal denotes. *)
Definition nearest (q : Qc) : float :=
  match Qnum q with
  | Z0 => PrimFloat.zero
  | Zpos n => nearest_pos (Zpos n) (Zpos (Qden q))
  | Zneg n => PrimFloat.opp (nearest_pos (Zpos n) (Zpos (Qden q)))
  end.

Definition of_float64 (x : float64) : float :=
  match x with
  | Finite q => nearest q
  | PosInf => PrimFloat.infinity
  | NegInf => PrimFloat.neg_infinity
  | NaN => PrimFloat.nan
  end.

Definition of_nat (n : nat) : float := of_float64 (of_nat n).

Definition fillna (v x : float) : float :=
  if PrimFloat.is_nan x then v else x.

(** [pandas.to_numeric(_, errors='coerce')] on one cell. *)
Definition to_numeric (c : cell) : float := of_float64 (pd.to_numeric c).

(** [Series.sum()]: NaN entries are skipped and the others added in row
    order, from 0 (the order of numpy for a column of fewer than 8 entries;
    a longer column is added in blocks). *)
Definition sum (l : list float) : float :=
  foldl PrimFloat.add PrimFloat.zero (filter (λ x, PrimFloat.is_nan x = false) l).

(** [Series.mean()]: the sum of the entries that are not NaN, divided by
    their number. *)
Definition mean (l : list float) : float :=
  let vs := filter (λ x, PrimFloat.is_nan x = false) l in
  match vs with
  | [] => PrimFloat.nan
  | _ => PrimFloat.div (foldl PrimFloat.add PrimFloat.zero vs) (of_nat (length vs))
  end.

Record row := mk_row {
  project_id : option string;
  area : option string;
  status : option string;
  conclusao : cell;
  valor : cell;
  custo_previsto : cell;
  conclusao_clean : float;
  valor_clean : float;
  custo_previsto_clean : float
}.

Definition clean_conclusao (c : cell) : result float :=
  match c with
  | CStr s =>
      if contains "%" s then
        match float_of_string (replace "," "." (replace "%" "" s)) with
        | Some x => Ok (PrimFloat.div (of_float64 x) (of_float64 (of_Z 100)))
        | None => Raise ValueError
        end
      else Ok (to_numeric c)
  | _ => Ok (to_numeric c)
  end.

Definition clean_cost (c : cell) : float :=
  fillna PrimFloat.zero (to_numeric c).

Definition clean_row (r : Raw.row) : result row :=
  c ← clean_conclusao (Raw.conclusao r);
  Ok {| project_id := Raw.project_id r;
        area := Raw.area r;
        status := Raw.status r;
        conclusao := Raw.conclusao r;
        valor := Raw.valor r;
        custo_previsto := Raw.custo_previsto r;
        conclusao_clean := c;
        valor_clean := clean_cost (Raw.valor r);
        custo_previsto_clean := clean_cost (Raw.custo_previsto r) |}.

Definition load_and_clean_data (raw : list Raw.row) : result (list row) :=
  let df := filter (λ r, keep_row r = true) raw in
  traverse clean_row df.

Record kpis := mk_kpis {
  total_projects : nat;
  status_counts : gmap string nat;
  avg_completion : float;
  planned_costs : float;
  actual_costs : float;
  cost_variance : float
}.

Definition calculate_kpis (df : list row) : kpis :=
  let total_projects := pd.nunique (project_id <$> df) in
  let status_counts := pd.to_dict (pd.groupby_nunique status project_id df) in
  let avg_completion := mean (conclusao_clean <$> df) in
  let planned_costs :=
    sum (custo_previsto_clean <$> pd.drop_duplicates project_id df) in
  let actual_costs := sum (valor_clean <$> df) in
  {| total_projects := total_projects;
     status_counts := status_counts;
     avg_completion :=
       if PrimFloat.is_nan avg_completion then PrimFloat.zero else avg_completion;
     planned_costs := planned_costs;
     actual_costs := actual_costs;
     cost_variance :=
       if PrimFloat.ltb PrimFloat.zero planned_costs
       then PrimFloat.mul
              (PrimFloat.div (PrimFloat.sub actual_costs planned_costs) planned_costs)
              (of_float64 (of_Z 100))
       else PrimFloat.zero |}.

Definition kpis_of (raw : list Raw.row) : result kpis :=
  df ← load_and_clean_data raw; Ok (calculate_kpis df).

End B64.

(* ===================================================================== *)
(** * The aggregation functions on a store of objects *)
(* ===================================================================== *)

(** The tables and the dictionary the functions bind to names live in a
    store; a name holds the location of its object.  An operation of pandas
    that returns a new table allocates; an assignment to a column, to
    [.columns] or to a key of a dictionary overwrites the object in place. *)

Inductive object :=
  | Clean (t : list row)
  | AggT (t : list Agg.row)
  | AreaT (t : list Area.row)
  | ActualT (t : list (string * float64))
  | PlannedT (t : list Planned.row)
  | MergedT (t : list Merged.row)
  | CostT (t : list Cost.row)
  | Dict (d : gmap string string).

Abbreviation loc := nat.
Abbreviation store := (list object).

Definition St (A : Type) : Type := store -> option (A * store).

Global Instance St_ret : MRet St := λ A a σ, Some (a, σ).
Global Instance St_bind : MBind St := λ A B f m σ,
  match m σ with
  | Some (a, σ') => f a σ'
  | None => None
  end.

Definition fail {A} : St A := λ _, None.

Definition alloc (o : object) : St loc := λ σ, Some (length σ, (σ ++ [o])%list).

Definition load (l : loc) : St object := λ σ,
  match σ !! l with
  | Some o => Some (o, σ)
  | None => None
  end.

Definition assign (l : loc) (o : object) : St unit := λ σ,
  if decide (l < length σ) then Some ((), <[l := o]> σ) else None.

Definition load_clean (l : loc) : St (list row) :=
  o ← load l; match o with Clean t => mret t | _ => fail end.
Definition load_agg (l : loc) : St (list Agg.row) :=
  o ← load l; match o with AggT t => mret t | _ => fail end.
Definition load_area (l : loc) : St (list Area.row) :=
  o ← load l; match o with AreaT t => mret t | _ => fail end.
Definition load_actual (l : loc) : St (list (string * float64)) :=
  o ← load l; match o with ActualT t => mret t | _ => fail end.
Definition load_planned (l : loc) : St (list Planned.row) :=
  o ← load l; match o with PlannedT t => mret t | _ => fail end.
Definition load_merged (l : loc) : St (list Merged.row) :=
  o ← load l; match o with MergedT t => mret t | _ => fail end.
Definition load_cost (l : loc) : St (list Cost.row) :=
  o ← load l; match o with CostT t => mret t | _ => fail end.
Definition load_dict (l : loc) : St (gmap string string) :=
  o ← load l; match o with Dict d => mret d | _ => fail end.

Module Stateful.

Definition calculate_kpis (df : loc) : St kpis :=
  t ← load_clean df;
  mret (calculate_kpis t).

Definition get_area_analysis (df : loc) : St (list Area.row) :=
  t ← load_clean df;
  area_data ← alloc (AggT (round_agg (area_agg (pd.drop_duplicates project_id t))));
  t ← load_clean df;
  let actual_costs_by_area := pd.groupby_sum area valor_clean t in
  (* area_data['custo_real'] = actual_costs_by_area *)
  a ← load_agg area_data;
  assign area_data (AreaT (set_custo_real a actual_costs_by_area));;
  (* area_data = area_data.round(2) *)
  a ← load_area area_data;
  area_data ← alloc (AreaT (round_area a));
  (* area_data.columns = [...] *)
  a ← load_area area_data;
  assign area_data (AreaT a);;
  (* return area_data.reset_index() *)
  a ← load_area area_data;
  out ← alloc (AreaT a);
  load_area out.

(** The loop [for status in status_counts: if status not in status_colors:
    status_colors[status] = '#A9A9A9']. *)
Fixpoint default_colors (status_colors : loc) (keys : list string) : St unit :=
  match keys with
  | [] => mret ()
  | status :: keys' =>
      d ← load_dict status_colors;
      (if decide (is_Some (d !! status)) then mret ()
       else assign status_colors (Dict (<[status := "#A9A9A9"]> d)));;
      default_colors status_colors keys'
  end.

Definition get_status_distribution (df : loc)
    : St (gmap string nat * gmap string string) :=
  t ← load_clean df;
  let counts := pd.groupby_nunique status project_id t in
  let status_counts := pd.to_dict counts in
  status_colors ← alloc (Dict known_colors);
  default_colors status_colors counts.*1;;
  d ← load_dict status_colors;
  mret (status_counts, d).

Definition prepare_cost_comparison_data (df : loc) : St (list Cost.row) :=
  t ← load_clean df;
  planned ← alloc (PlannedT (planned_of t));
  t ← load_clean df;
  actual ← alloc (ActualT (pd.groupby_sum project_id valor_clean t));
  (* actual.columns = ['project_id', 'custo_real_total'] *)
  a ← load_actual actual;
  assign actual (ActualT a);;
  p ← load_planned planned;
  a ← load_actual actual;
  cost_comparison ← alloc (MergedT (merge_left p a));
  m ← load_merged cost_comparison;
  assign cost_comparison (MergedT (fillna_real m));;
  m ← load_merged cost_comparison;
  assign cost_comparison (CostT (set_variance m));;
  load_cost cost_comparison.

End Stateful.

(* ===================================================================== *)
(** * Inputs used below *)
(* ===================================================================== *)

Definition raw_row (pid dept st : string) (concl : cell) (planned actual : float64)
    : Raw.row :=
  Raw.mk (Some pid) (Some dept) (Some st) concl (CNum actual) (CNum planned).

(** A cleaned row built from its typed columns. *)
Definition cleaned_row (pid dept st : option string) (concl planned actual : float64)
    : row :=
  {| project_id := pid; area := dept; status := st;
     conclusao := CNum concl; valor := CNum actual; custo_previsto := CNum planned;
     conclusao_clean := concl; valor_clean := actual;
     custo_previsto_clean := planned |}.

(** One project whose completion cell holds a percent sign and no number. *)
Definition bad_percent_table : list Raw.row :=
  [ raw_row "P1" "A" "em dia" (CStr "abc%") (of_Z 1000) (of_Z 400) ].

(** One project with nothing planned and 100 spent. *)
Definition zero_planned_table : list Raw.row :=
  [ raw_row "P1" "A" "em dia" (CStr "50%") zero (of_Z 100) ].

(** One project with a negative planned cost. *)
Definition negative_planned_table : list Raw.row :=
  [ raw_row "P1" "A" "em dia" (CStr "50%") (of_Z (-100)) (of_Z 50) ].

(** One project whose planned cost has a third decimal. *)
Definition third_decimal_table : list Raw.row :=
  [ raw_row "P1" "A" "em dia" (CStr "50%") (dec 10004 3) (of_Z 5) ].

(** One project with no department. *)
Definition no_area_table : list Raw.row :=
  [ Raw.mk (Some "P1") None (Some "em dia") (CStr "50%")
      (CNum (of_Z 5)) (CNum (of_Z 100)) ].

(** Two projects, one of them on two rows, and two rows without a usable
    identifier. *)
Definition blank_id_table : list Raw.row :=
  [ raw_row "P1" "A" "em dia" (CStr "50%") (of_Z 1000) (of_Z 400);
    Raw.mk None (Some "A") (Some "em dia") (CStr "10%")
      (CNum (of_Z 1)) (CNum (of_Z 2));
    raw_row "" "B" "atrasado" (CNum (dec 2 1)) (of_Z 500) (of_Z 600);
    raw_row "P2" "B" "atrasado" (CStr "n/a") (of_Z 500) (of_Z 600) ].

(** Three rows of one project with completions 0.5, missing and 0.3. *)
Definition mean_example_table : list row :=
  [ cleaned_row (Some "P1") (Some "A") (Some "em dia") (dec 5 1) (of_Z 100) (of_Z 10);
    cleaned_row (Some "P1") (Some "A") (Some "em dia") NaN (of_Z 100) (of_Z 20);
    cleaned_row (Some "P1") (Some "A") (Some "em dia") (dec 3 1) (of_Z 100) (of_Z 30) ].

(** The cleaned scenario with the rows of a third project added: project
    P1 on two rows in department A, projects P2 and P3 in department B, P3
    on two rows. *)
Definition two_area_table : list row :=
  [ cleaned_row (Some "P1") (Some "A") (Some "em dia") (dec 5 1) (of_Z 1000) (of_Z 400);
    cleaned_row (Some "P3") (Some "B") (Some "critico") (dec 1 1) (dec 25050 2) (of_Z 10);
    cleaned_row (Some "P1") (Some "A") (Some "em dia") (dec 5 1) (of_Z 1000) (of_Z 200);
    cleaned_row (Some "P2") (Some "B") (Some "atrasado") (dec 2 1) (dec 24950 2) (of_Z 600);
    cleaned_row (Some "P3") (Some "B") (Some "critico") (dec 1 1) (dec 25050 2) (of_Z 20) ].

(** Two projects whose cost cells are empty, a text that is no number and
    a number. *)
Definition dirty_cost_table : list Raw.row :=
  [ Raw.mk (Some "P1") (Some "A") (Some "em dia") (CStr "50%")
      CNull (CStr "n/a");
    Raw.mk (Some "P2") (Some "B") (Some "atrasado") (CStr "20%")
      (CStr "600") (CStr "") ].

(** One project with a row in department A and a later row in department
    B. *)
Definition split_project_table : list row :=
  [ cleaned_row (Some "P1") (Some "A") (Some "em dia") (dec 5 1) (of_Z 1000) (of_Z 400);
    cleaned_row (Some "P1") (Some "B") (Some "em dia") (dec 5 1) (of_Z 1000) (of_Z 200) ].


(** Three projects in two departments with whole planned and actual costs,
    two of the projects on two rows. *)
Definition whole_cost_table : list row :=
  [ cleaned_row (Some "P1") (Some "A") (Some "em dia") (dec 5 1) (of_Z 1000) (of_Z 400);
    cleaned_row (Some "P3") (Some "B") (Some "critico") (dec 1 1) (of_Z 250) (of_Z 10);
    cleaned_row (Some "P1") (Some "A") (Some "em dia") (dec 5 1) (of_Z 1000) (of_Z 200);
    cleaned_row (Some "P2") (Some "B") (Some "atrasado") (dec 2 1) (of_Z 500) (of_Z 600);
    cleaned_row (Some "P3") (Some "B") (Some "critico") (dec 1 1) (of_Z 250) (of_Z 20) ].

(** A row without identifier whose completion cell holds a percent sign and
    no number, and two projects whose completion cells hold no percent
    sign: a text that is no number, and a number. *)
Definition no_percent_table : list Raw.row :=
  [ Raw.mk None (Some "A") (Some "em dia") (CStr "abc%")
      (CNum (of_Z 1)) (CNum (of_Z 2));
    raw_row "P1" "A" "em dia" (CStr "n/a") (of_Z 1000) (of_Z 400);
    raw_row "P2" "B" "atrasado" (CNum (dec 2 1)) (of_Z 500) (of_Z 600) ].

(* ===================================================================== *)
(** * Reference definitions *)
(* ===================================================================== *)

(** The definitions of this part say what the aggregates are in plain
    rational arithmetic; the properties below compare the functions with
    them. *)

Definition qsum (qs : list Qc) : Qc := foldr Qcplus 0%Qc qs.

(** The entries of a column that are numbers. *)
Definition finite_values (l : list float64) : list Qc :=
  omap (λ x, match x with Finite q => Some q | _ => None end) l.

Definition arithmetic_mean (qs : list Qc) : Qc :=
  (qsum qs / Q2Qc (inject_Z (Z.of_nat (length qs))))%Qc.

(** A number with at most two decimals: a finite number that rounding to
    two decimals leaves as it is. *)
Definition two_decimals (x : float64) : bool :=
  is_finite x && bool_decide (np.round 2 x = x).

(** The number of distinct projects among the rows of one status. *)
Definition distinct_projects (df : list row) (s : string) : nat :=
  size (list_to_set (omap project_id (filter (λ r, status r = Some s) df))
          : gset string).

(** The count of distinct projects per status, as a mapping: a status is a
    key when some row carries it. *)
Definition count_by_status (df : list row) (s : string) : option nat :=
  if bool_decide (Some s ∈ status <$> df) then Some (distinct_projects df s)
  else None.

(** A run from a store that returns a value and leaves every object of the
    store as it was; what the run allocated comes after them. *)
Definition leaves_store {A} (m : St A) (σ : store) (a : A) : Prop :=
  exists τ, m σ = Some (a, (σ ++ τ)%list).

(** A completion cell that is no text with a percent sign. *)
Definition no_percent (c : cell) : bool :=
  match c with
  | CStr s => negb (contains "%" s)
  | _ => true
  end.



(** The integer a whole number is. *)
Definition whole (x : float64) : option Z :=
  match x with
  | Finite q => if decide (Qden q = 1%positive) then Some (Qnum q) else None
  | _ => None
  end.

(** Whole numbers whose absolute values, taken a hundred times, add up to
    less than 2^53.  On such numbers exact arithmetic is the arithmetic of
    the code: every sum of some of them, and a hundred times that sum, is an
    integer below 2^53, which the additions of binary64 (and of int64) and
    [round(2)] give without rounding, in whatever order they add. *)
Definition exact_whole (l : list float64) : bool :=
  match mapM whole l with
  | Some zs => bool_decide (100 * foldr Z.add 0 (Z.abs <$> zs) < 2 ^ 53)%Z
  | None => false
  end.

(** The period and the comma exchanged, every other character kept. *)
Fixpoint swap_separators (s : string) : string :=
  match s with
  | EmptyString => EmptyString
  | String a s' =>
      String (if decide (a = ","%char) then "."%char
              else if decide (a = "."%char) then ","%char else a)
             (swap_separators s')
  end.

(* ===================================================================== *)
(** * Properties *)
(* ===================================================================== *)

(** Equalities between closed numbers, texts and tables are decided by
    evaluation. *)
Ltac by_eval :=
  match goal with
  | |- ?P => apply (bool_decide_eq_true_1 P); vm_compute; reflexivity
  end.

Section Formatting.

(** C8: the formatters on the five inputs of the specification: zero and a
    missing amount give "R$ 0,00", 1234.5 gives "R$ 1.234,50", a missing
    percentage gives "0,0%" and 12.34 gives "12,3%". *)
Theorem format_examples :
  format_currency (Some zero) = "R$ 0,00" /\
  format_currency None = "R$ 0,00" /\
  format_currency (Some NaN) = "R$ 0,00" /\
  format_currency (Some (dec 12345 1)) = "R$ 1.234,50" /\
  format_percentage None = "0,0%" /\
  format_percentage (Some NaN) = "0,0%" /\
  format_percentage (Some (dec 1234 2)) = "12,3%".
Proof. repeat split; vm_compute; reflexivity. Qed.

End Formatting.

Section Cleaning.

Lemma traverse_Ok {A B} (f : A -> result B) (l : list A) (bs : list B) :
  traverse f l = Ok bs -> Forall2 (λ a b, f a = Ok b) l bs.
Proof.
  revert bs. induction l as [|a l IH]; intros bs; simpl.
  - intros [= <-]. constructor.
  - destruct (f a) as [b|e] eqn:Ha; simpl; [|discriminate].
    destruct (traverse f l) as [bs'|e]; simpl; [|discriminate].
    intros [= <-]. constructor; [done | by apply IH].
Qed.

Lemma clean_row_project_id (r : Raw.row) (c : row) :
  clean_row r = Ok c -> project_id c = Raw.project_id r.
Proof.
  unfold clean_row. destruct (clean_conclusao _); simpl; [|discriminate].
  by intros [= <-].
Qed.

Lemma keep_row_spec (r : Raw.row) :
  keep_row r = true <-> Raw.project_id r ≠ None /\ Raw.project_id r ≠ Some "".
Proof.
  unfold keep_row. rewrite andb_true_iff, negb_true_iff, bool_decide_eq_false.
  destruct (Raw.project_id r) as [s|]; simpl; [|intuition congruence].
  split; [intros [_ H]; split; congruence | intros [_ H]; split; congruence].
Qed.

(** C7: when the loader returns a table, its rows are, in order, the
    cleaned forms of exactly the raw rows whose identifier is neither
    missing nor the empty text, so every row with such an identifier is
    dropped; and no row of the result has a missing or empty identifier. *)
Theorem blank_ids_dropped (raw : list Raw.row) (df : list row) :
  load_and_clean_data raw = Ok df ->
  Forall2 (λ r c, clean_row r = Ok c)
    (filter (λ r, Raw.project_id r ≠ None /\ Raw.project_id r ≠ Some "") raw) df
  /\ Forall (λ c, project_id c ≠ None /\ project_id c ≠ Some "") df.
Proof.
  unfold load_and_clean_data. intros H%traverse_Ok.
  assert (Hf : filter (λ r, keep_row r = true) raw
             = filter (λ r, Raw.project_id r ≠ None /\ Raw.project_id r ≠ Some "") raw).
  { apply list_filter_iff. intros r. apply keep_row_spec. }
  rewrite Hf in H. split; [exact H|].
  apply Forall2_Forall_r with (1 := H).
  apply List.Forall_forall. intros r Hr c Hc.
  apply list_elem_of_In, list_elem_of_filter in Hr.
  rewrite (clean_row_project_id _ _ Hc). tauto.
Qed.

Lemma blank_ids_dropped_witness :
  exists df, load_and_clean_data blank_id_table = Ok df
    /\ project_id <$> df = [Some "P1"; Some "P2"]
    /\ Forall (λ c, project_id c ≠ None /\ project_id c ≠ Some "") df.
Proof.
  eexists. split; [reflexivity|]. split; [reflexivity|].
  apply (blank_ids_dropped blank_id_table). reflexivity.
Defined.

(** Cleaning of the completion column on texts that are numbers: a percent
    text is divided by 100 after the comma became a period, any other text
    is parsed as it stands, and a text without a percent sign that is no
    number becomes NaN. *)
Lemma clean_conclusao_percent (s : string) (x : float64) :
  contains "%" s = true ->
  float_of_string (replace "," "." (replace "%" "" s)) = Some x ->
  clean_conclusao (CStr s) = Ok (fdiv x (of_Z 100)).
Proof. intros Hc Hp. unfold clean_conclusao. by rewrite Hc, Hp. Qed.

Lemma clean_conclusao_plain (s : string) :
  contains "%" s = false ->
  clean_conclusao (CStr s) = Ok (default NaN (float_of_string s)).
Proof. intros Hc. unfold clean_conclusao. by rewrite Hc. Qed.

Lemma clean_conclusao_examples :
  clean_conclusao (CStr "0,7%") = Ok (dec 7 3) /\
  clean_conclusao (CStr "70%") = Ok (dec 70 2) /\
  clean_conclusao (CStr "0.55") = Ok (dec 55 2) /\
  clean_conclusao (CStr "n/a") = Ok NaN /\
  clean_conclusao CNull = Ok NaN.
Proof.
  repeat split; try reflexivity; unfold clean_conclusao; simpl; f_equal; by_eval.
Qed.

(** C2: a completion cell that holds a percent sign and no number does not
    clean to a missing value: the conversion of the percent texts raises,
    and the loader returns no table at all. *)
Theorem percent_text_not_coerced :
  clean_conclusao (CStr "abc%") = Raise ValueError /\
  load_and_clean_data bad_percent_table = Raise ValueError.
Proof. split; reflexivity. Qed.

End Cleaning.

Section Kpis.

Lemma Q2Qc_inject_Z_eq0 (z : Z) : Q2Qc (inject_Z z) = 0%Qc -> z = 0%Z.
Proof.
  intros H. apply (f_equal this) in H.
  change (Qred (inject_Z z) = Qred 0) in H. apply Qred_eq_iff in H.
  unfold Qeq in H. simpl in H. lia.
Qed.

Lemma sum_finite (qs : list Qc) :
  foldr fadd zero (Finite <$> qs) = Finite (qsum qs).
Proof.
  induction qs as [|q qs IH]; [done|].
  change (fadd (Finite q) (foldr fadd zero (Finite <$> qs)) = Finite (q + qsum qs)%Qc).
  by rewrite IH.
Qed.

Lemma filter_present (l : list float64) :
  Forall (λ x, x ≠ PosInf /\ x ≠ NegInf) l ->
  filter (λ x, np.isnan x = false) l = Finite <$> finite_values l.
Proof.
  induction 1 as [|x l [Hp Hn] _ IH]; [done|].
  destruct x as [q| | |]; try done.
  rewrite filter_cons_True by done.
  change (Finite q :: filter (λ x, np.isnan x = false) l
          = Finite q :: (Finite <$> finite_values l)).
  by rewrite IH.
Qed.

Lemma mean_finite (l : list float64) :
  Forall (λ x, x ≠ PosInf /\ x ≠ NegInf) l ->
  pd.mean l = match finite_values l with
              | [] => NaN
              | qs => Finite (arithmetic_mean qs)
              end.
Proof.
  intros Hfin. unfold pd.mean. rewrite filter_present by done.
  destruct (finite_values l) as [|q qs]; [done|].
  change (fdiv (foldr fadd zero (Finite <$> q :: qs))
               (of_nat (length (Finite <$> q :: qs)))
          = Finite (arithmetic_mean (q :: qs))).
  rewrite sum_finite, length_fmap. unfold of_nat, of_Z, fdiv.
  rewrite bool_decide_eq_false_2; [done|].
  intros H%Q2Qc_inject_Z_eq0. simpl in H. lia.
Qed.

(** C1: the end-to-end scenario on binary64 numbers.  The loader accepts the
    three rows, and the indicators are 2 projects, one project per status,
    planned costs 1500, actual costs 1200, variance -20.0 and an average
    completion of 0.39999999999999997: the mean of 0.5, 0.5 and 0.2, one
    value per row, which is the binary64 number just below the one the
    literal 0.4 denotes. *)
Theorem scenario_kpis_binary64 :
  exists k, B64.kpis_of scenario = Ok k
    /\ B64.total_projects k = 2%nat
    /\ B64.status_counts k = {[ "em dia" := 1%nat; "atrasado" := 1%nat ]}
    /\ B64.avg_completion k = B64.of_float64 (dec 39999999999999997 17)
    /\ B64.avg_completion k ≠ B64.of_float64 (dec 4 1)
    /\ B64.planned_costs k = B64.of_float64 (of_Z 1500)
    /\ B64.actual_costs k = B64.of_float64 (of_Z 1200)
    /\ B64.cost_variance k = B64.of_float64 (of_Z (-20)).
Proof.
  eexists. split; [reflexivity|].
  split; [by_eval|]. split; [by_eval|].
  split; [vm_compute; reflexivity|].
  split; [|repeat split; vm_compute; reflexivity].
  intros H. apply (f_equal FloatOps.Prim2SF) in H. vm_compute in H. discriminate.
Qed.

(** The scenario as the specification states it, with an average
    completion of 0.35, does not hold: already in exact arithmetic the
    mean over the three rows is 0.4. *)
Lemma scenario_avg_is_not_035 :
  ~ exists k, kpis_of scenario = Ok k
    /\ total_projects k = 2%nat
    /\ status_counts k = {[ "em dia" := 1%nat; "atrasado" := 1%nat ]}
    /\ avg_completion k = dec 35 2
    /\ planned_costs k = of_Z 1500
    /\ actual_costs k = of_Z 1200
    /\ cost_variance k = of_Z (-20).
Proof.
  intros (k & Hk & _ & _ & Havg & _).
  injection Hk as <-. revert Havg.
  apply (bool_decide_eq_false_1 (_ = _)). vm_compute. reflexivity.
Qed.

(** The indicators name their sums: the planned costs are those of the
    first row of every project, the actual costs those of all rows. *)
Lemma kpi_sums (df : list row) :
  planned_costs (calculate_kpis df)
  = pd.sum (custo_previsto_clean <$> pd.drop_duplicates project_id df)
  /\ actual_costs (calculate_kpis df) = pd.sum (valor_clean <$> df).
Proof. done. Qed.

(** C5: when the two sums are numbers, the cost variance is
    (actual - planned) / planned * 100 for a planned sum above zero, and
    0.0 for every other planned sum, zero and negative ones alike,
    whatever the actual costs are. *)
Theorem cost_variance_guarded (df : list row) (p a : Qc) :
  planned_costs (calculate_kpis df) = Finite p ->
  actual_costs (calculate_kpis df) = Finite a ->
  cost_variance (calculate_kpis df)
  = Finite (if decide (0 < p)%Qc
            then (a - p) / p * Q2Qc (inject_Z 100) else 0)%Qc.
Proof.
  simpl. intros -> ->. unfold fgt, zero, of_Z.
  change (Q2Qc (inject_Z 0)) with 0%Qc.
  destruct (decide (0 < p)%Qc) as [Hp|Hp].
  - rewrite bool_decide_eq_true_2 by done. simpl.
    rewrite bool_decide_eq_false_2; [done|].
    intros ->. by apply Qclt_not_eq in Hp.
  - by rewrite bool_decide_eq_false_2.
Qed.

Lemma cost_variance_guarded_witness :
  cost_variance (calculate_kpis mean_example_table) = of_Z (-40).
Proof.
  rewrite (cost_variance_guarded mean_example_table
             (Q2Qc (inject_Z 100)) (Q2Qc (inject_Z 60))); by_eval.
Defined.

(** With a negative planned sum the variance is 0.0 and not the quotient. *)
Lemma negative_planned_variance :
  exists df, load_and_clean_data negative_planned_table = Ok df
    /\ planned_costs (calculate_kpis df) = of_Z (-100)
    /\ planned_costs (calculate_kpis df) ≠ zero
    /\ cost_variance (calculate_kpis df) = zero
    /\ cost_variance (calculate_kpis df)
        ≠ fmul (fdiv (fsub (actual_costs (calculate_kpis df))
                          (planned_costs (calculate_kpis df)))
                    (planned_costs (calculate_kpis df))) (of_Z 100).
Proof.
  eexists. split; [reflexivity|].
  repeat split; try by_eval;
    apply (bool_decide_eq_false_1 (_ = _)); vm_compute; reflexivity.
Qed.

End Kpis.

Section Areas.

Local Open Scope Qc_scope.

Lemma Q2Qc_inject_Z_this (z : Z) : this (Q2Qc (inject_Z z)) = inject_Z z.
Proof. simpl. apply Qred_identity. simpl. apply Z.gcd_1_r. Qed.

Lemma Q2Qc_inject_Z_add (a b : Z) :
  Q2Qc (inject_Z (a + b)) = Q2Qc (inject_Z a) + Q2Qc (inject_Z b).
Proof.
  apply Qc_is_canon. simpl. rewrite !Qred_correct, inject_Z_plus. reflexivity.
Qed.

Lemma pow10_neq0 (k : nat) : pow10 k ≠ 0.
Proof. unfold pow10. intros H%Q2Qc_inject_Z_eq0. lia. Qed.

Lemma rint_inject_Z (z : Z) : rint (Q2Qc (inject_Z z)) = z.
Proof.
  unfold rint. rewrite Q2Qc_inject_Z_this. simpl.
  rewrite Z.div_1_r, Z.mod_1_r. done.
Qed.

(** The numbers with at most [k] decimals are the quotients z / 10^k. *)
Lemma round_fixed_iff (k : nat) (q : Qc) :
  np.round k (Finite q) = Finite q
  <-> exists z : Z, q = Q2Qc (inject_Z z) / pow10 k.
Proof.
  split.
  - intros [= H]. eexists. by rewrite H.
  - intros [z ->]. simpl. f_equal.
    replace (Q2Qc (inject_Z z) / pow10 k * pow10 k) with (Q2Qc (inject_Z z))
      by (field; apply pow10_neq0).
    by rewrite rint_inject_Z.
Qed.

Lemma round_fixed_add (k : nat) (a b : Qc) :
  np.round k (Finite a) = Finite a ->
  np.round k (Finite b) = Finite b ->
  np.round k (Finite (a + b)) = Finite (a + b).
Proof.
  rewrite !round_fixed_iff. intros [x ->] [y ->]. exists (x + y)%Z.
  rewrite Q2Qc_inject_Z_add. field. apply pow10_neq0.
Qed.

Lemma round_fixed_qsum (k : nat) (qs : list Qc) :
  Forall (λ q, np.round k (Finite q) = Finite q) qs ->
  np.round k (Finite (qsum qs)) = Finite (qsum qs).
Proof.
  induction 1 as [|q qs Hq _ IH].
  - apply round_fixed_iff. exists 0%Z. change (0 = 0 / pow10 k). field. apply pow10_neq0.
  - by apply round_fixed_add.
Qed.


Lemma pd_sum_Finite (qs : list Qc) : pd.sum (Finite <$> qs) = Finite (qsum qs).
Proof.
  unfold pd.sum. rewrite <- sum_finite. f_equal.
  induction qs as [|q qs IH]; [done|].
  rewrite fmap_cons, filter_cons_True by done. by rewrite IH.
Qed.

Lemma pd_sum_Finite_fmap {K} (g : K -> Qc) (ks : list K) :
  pd.sum (fmap (λ k, Finite (g k)) ks) = Finite (qsum (g <$> ks)).
Proof. rewrite <- pd_sum_Finite, <- list_fmap_compose. done. Qed.

Lemma finite_values_fmap {R} (col : R -> float64) (l : list R) :
  Forall (λ r, is_finite (col r) = true) l ->
  col <$> l = Finite <$> (finite_values (col <$> l)).
Proof.
  induction 1 as [|r l Hr _ IH]; [done|].
  rewrite !fmap_cons. destruct (col r) as [q| | |] eqn:E; try done.
  change (Finite q :: (col <$> l)
          = Finite q :: (Finite <$> finite_values (col <$> l))).
  by f_equal.
Qed.

Lemma sum_two_decimals (l : list float64) :
  Forall (λ x, two_decimals x = true) l ->
  pd.sum l = Finite (qsum (finite_values l))
  /\ np.round 2 (pd.sum l) = pd.sum l.
Proof.
  intros H.
  assert (Hl : l = Finite <$> finite_values l).
  { rewrite <- (list_fmap_id l) at 1 2. apply finite_values_fmap.
    eapply Forall_impl; [exact H|]. intros x [Hx _]%andb_true_iff. done. }
  assert (Hs : pd.sum l = Finite (qsum (finite_values l))).
  { rewrite Hl at 1. apply pd_sum_Finite. }
  split; [done|]. rewrite Hs. apply round_fixed_qsum.
  clear Hs. rewrite Hl in H. clear Hl.
  induction (finite_values l) as [|q qs IH]; [constructor|].
  inversion H as [|? ? Hq Hqs]; subst. constructor; [|by apply IH].
  apply andb_true_iff in Hq as [_ Hq]. by apply bool_decide_eq_true in Hq.
Qed.

Lemma drop_duplicates_from_Forall {R} (P : R -> Prop) (key : R -> option string)
    (seen : list (option string)) (df : list R) :
  Forall P df -> Forall P (pd.drop_duplicates_from key seen df).
Proof.
  intros H. revert seen.
  induction H as [|r df Hr _ IH]; intros seen; simpl; [constructor|].
  case_decide; [apply IH | constructor; [done | apply IH]].
Qed.

Lemma group_keys_NoDup {R} (key : R -> option string) (df : list R) :
  NoDup (pd.group_keys key df).
Proof.
  unfold pd.group_keys. rewrite merge_sort_Permutation. apply NoDup_remove_dups.
Qed.

Lemma elem_of_group_keys {R} (key : R -> option string) (df : list R) (k : string) :
  k ∈ pd.group_keys key df <-> exists r, r ∈ df /\ key r = Some k.
Proof.
  unfold pd.group_keys.
  rewrite merge_sort_Permutation, elem_of_remove_dups, list_elem_of_omap.
  done.
Qed.

Lemma qsum_cons (q : Qc) (qs : list Qc) : qsum (q :: qs) = q + qsum qs.
Proof. done. Qed.

Lemma qsum_const0 {K} (ks : list K) : qsum (fmap (λ _, 0) ks) = 0.
Proof.
  induction ks as [|k ks IH]; [done|]. rewrite fmap_cons, qsum_cons, IH. ring.
Qed.

Lemma qsum_add {K} (g h : K -> Qc) (ks : list K) :
  qsum (fmap (λ k, g k + h k) ks) = qsum (g <$> ks) + qsum (h <$> ks).
Proof.
  induction ks as [|k ks IH]; [change (0 = 0 + 0); ring|].
  rewrite !fmap_cons, !qsum_cons, IH. ring.
Qed.

Lemma qsum_indicator (ks : list string) (k0 : string) (x : Qc) :
  NoDup ks -> k0 ∈ ks ->
  qsum (fmap (λ k, if decide (k0 = k) then x else 0) ks) = x.
Proof.
  induction 1 as [|k ks Hk Hnd IH]; [by intros ?%elem_of_nil|].
  intros Hin. rewrite fmap_cons, qsum_cons. case_decide as Hd.
  - subst k.
    rewrite (proj1 (Forall_fmap_ext _ (λ _, 0) ks)); [rewrite qsum_const0; ring|].
    apply Forall_forall. intros k' Hk'. case_decide; [by subst|done].
  - apply elem_of_cons in Hin as [->|Hin]; [done|]. rewrite IH by done. ring.
Qed.

(** Summing every group and then the groups is summing the table, when
    every row is in a group. *)
Lemma qsum_groups {R} (key : R -> option string) (f : R -> Qc)
    (ks : list string) (df : list R) :
  NoDup ks ->
  Forall (λ r, exists k, key r = Some k /\ k ∈ ks) df ->
  qsum (fmap (λ k, qsum (f <$> pd.group key k df)) ks) = qsum (f <$> df).
Proof.
  intros Hnd. induction 1 as [|r df (k0 & Hk0 & Hin) _ IH].
  - apply qsum_const0.
  - rewrite fmap_cons.
    rewrite qsum_cons, <- IH, <- (qsum_indicator ks k0 (f r) Hnd Hin), <- qsum_add.
    f_equal. apply Forall_fmap_ext, Forall_forall. intros k _.
    unfold pd.group. case_decide as Hd.
    + subst k. by rewrite filter_cons_True, fmap_cons, qsum_cons.
    + rewrite filter_cons_False by (rewrite Hk0; congruence). ring.
Qed.


(** The planned-cost column of the department table, before any rounding:
    one sum per department over the first rows of the projects. *)
Lemma area_planned_column (df : list row) :
  Area.custo_previsto_total <$> get_area_analysis df
  = fmap (λ k, np.round 2 (np.round 2
             (pd.sum (custo_previsto_clean
                        <$> pd.group area k (pd.drop_duplicates project_id df)))))
         (pd.group_keys area (pd.drop_duplicates project_id df)).
Proof.
  unfold get_area_analysis, round_area, set_custo_real, round_agg, area_agg,
    pd.groupby.
  rewrite <- !list_fmap_compose. done.
Qed.

Lemma Q2Qc_inject_Z_mul (a b : Z) :
  Q2Qc (inject_Z (a * b)) = Q2Qc (inject_Z a) * Q2Qc (inject_Z b).
Proof.
  apply Qc_is_canon. simpl. rewrite !Qred_correct, inject_Z_mult. reflexivity.
Qed.

Lemma whole_of_Z (x : float64) (z : Z) : whole x = Some z -> x = of_Z z.
Proof.
  destruct x as [q| | |]; try done. simpl.
  case_decide as Hd; [|done]. intros [= <-]. unfold of_Z. f_equal.
  apply Qc_is_canon. rewrite Q2Qc_inject_Z_this.
  destruct q as [[n d] Hq]. simpl in *. by subst d.
Qed.

Lemma whole_two_decimals (x : float64) :
  is_Some (whole x) -> two_decimals x = true.
Proof.
  intros [z ->%whole_of_Z]. unfold two_decimals, of_Z. simpl is_finite.
  apply bool_decide_eq_true_2. apply round_fixed_iff. exists (z * 100)%Z.
  rewrite Q2Qc_inject_Z_mul. change (pow10 2) with (Q2Qc (inject_Z 100)).
  field. intros H%Q2Qc_inject_Z_eq0. lia.
Qed.

Lemma exact_whole_two_decimals (l : list float64) :
  exact_whole l = true -> Forall (λ x, two_decimals x = true) l.
Proof.
  unfold exact_whole. destruct (mapM whole l) as [zs|] eqn:E; [|done].
  intros _. apply mapM_Some in E.
  induction E as [|x z l zs Hx _ IH]; constructor; [|done].
  apply whole_two_decimals. by eexists.
Qed.

(** Adding a row to the table adds it to the group of its key. *)
Lemma groups_cons {T} (key : T -> option string) (ks : list string)
    (r : T) (l : list T) (k0 : string) :
  NoDup ks -> k0 ∈ ks -> key r = Some k0 ->
  concat (fmap (λ k, pd.group key k (r :: l)) ks)
  ≡ₚ r :: concat (fmap (λ k, pd.group key k l) ks).
Proof.
  intros Hnd Hin Hk. induction Hnd as [|k ks Hnk Hnd IH]; [by apply elem_of_nil in Hin|].
  rewrite !fmap_cons, !concat_cons. unfold pd.group at 1.
  destruct (decide (k = k0)) as [->|Hne].
  - rewrite filter_cons_True by done.
    rewrite (proj1 (Forall_fmap_ext (λ k, pd.group key k (r :: l))
                      (λ k, pd.group key k l) ks)); [done|].
    apply Forall_forall. intros k Hk'. unfold pd.group.
    rewrite filter_cons_False; [done|]. rewrite Hk. intros [= ->]. done.
  - rewrite filter_cons_False by (rewrite Hk; congruence).
    apply elem_of_cons in Hin as [->|Hin]; [done|].
    rewrite (IH Hin). by rewrite Permutation_middle.
Qed.

(** The groups of a table in which every row has a key hold every row
    once. *)
Lemma groups_partition {T} (key : T -> option string) (l : list T) :
  Forall (λ r, is_Some (key r)) l ->
  concat (fmap (λ k, pd.group key k l) (pd.group_keys key l)) ≡ₚ l.
Proof.
  pose proof (group_keys_NoDup key l) as Hnd.
  assert (Hin : Forall (λ r, forall k, key r = Some k -> k ∈ pd.group_keys key l) l).
  { apply Forall_forall. intros r Hr k Hk. apply elem_of_group_keys. eauto. }
  revert Hnd Hin. generalize (pd.group_keys key l). intros ks Hnd Hin H.
  induction H as [|r l [k0 Hk0] _ IH].
  - induction ks as [|k ks IHk]; [done|]. rewrite fmap_cons, concat_cons.
    apply NoDup_cons in Hnd as [_ Hnd]. by rewrite IHk.
  - apply Forall_cons in Hin as [Hr Hin].
    rewrite (groups_cons key ks r l k0 Hnd (Hr _ Hk0) Hk0). by rewrite IH.
Qed.

(** In exact arithmetic the sums of the groups add up to the sum of the
    table when rounding to two decimals changes none of the numbers. *)
Lemma planned_group_sums (D : list row) :
  Forall (λ r, is_Some (area r)) D ->
  Forall (λ x, two_decimals x = true) (custo_previsto_clean <$> D) ->
  pd.sum (fmap (λ k, np.round 2 (np.round 2
            (pd.sum (custo_previsto_clean <$> pd.group area k D))))
          (pd.group_keys area D))
  = pd.sum (custo_previsto_clean <$> D).
Proof.
  intros Ha H.
  set (f := λ r : row, match custo_previsto_clean r with Finite q => q | _ => 0 end).
  assert (Hf : forall l : list row, Forall (λ r, r ∈ D) l ->
            pd.sum (custo_previsto_clean <$> l) = Finite (qsum (f <$> l))
            /\ np.round 2 (pd.sum (custo_previsto_clean <$> l))
               = pd.sum (custo_previsto_clean <$> l)).
  { intros l Hl.
    assert (Hl2 : Forall (λ x, two_decimals x = true) (custo_previsto_clean <$> l)).
    { apply Forall_fmap. eapply Forall_impl; [exact Hl|]. intros r Hr. simpl.
      rewrite Forall_fmap, Forall_forall in H. by apply H. }
    destruct (sum_two_decimals _ Hl2) as [Hs Hr]. split; [|done].
    rewrite Hs. do 2 f_equal. clear Hs Hr.
    induction l as [|r l IH]; [done|].
    apply Forall_cons in Hl as [Hr Hl]. apply Forall_cons in Hl2 as [Hr2 Hl2].
    rewrite !fmap_cons. unfold f at 1.
    destruct (custo_previsto_clean r); try done.
    simpl. f_equal. by apply IH. }
  rewrite (proj1 (Forall_fmap_ext _
             (λ k, Finite (qsum (f <$> pd.group area k D))) (pd.group_keys area D))).
  - rewrite (pd_sum_Finite_fmap (λ k, qsum (f <$> pd.group area k D))).
    rewrite (proj1 (Hf D (proj2 (Forall_forall _ _) (λ _ Hr, Hr)))). f_equal.
    apply qsum_groups; [apply group_keys_NoDup|].
    apply Forall_forall. intros r Hr.
    rewrite Forall_forall in Ha. destruct (Ha r Hr) as [k Hk].
    exists k. split; [done|]. apply elem_of_group_keys. eauto.
  - apply Forall_forall. intros k _.
    assert (Hg : Forall (λ r, r ∈ D) (pd.group area k D)).
    { apply Forall_forall. intros r Hr. by apply list_elem_of_filter in Hr as [_ ?]. }
    destruct (Hf _ Hg) as [Hs Hr]. by rewrite !Hr, Hs.
Qed.

(** C6: when the first row of every project names a department, the
    departments of [get_area_analysis] split the first rows of the projects,
    those [calculate_kpis] adds the planned costs of: every project is in
    the sum of one department and of no other.  A department's planned cost
    is its sum rounded to two decimals (twice), so the departments add up
    to the planned costs of the indicators when nothing is rounded: for
    whole planned costs below 2^53 / 100 in total. *)
Theorem area_planned_partition (df : list row) :
  let D := pd.drop_duplicates project_id df in
  Forall (λ r, is_Some (area r)) D ->
  Area.custo_previsto_total <$> get_area_analysis df
  = fmap (λ k, np.round 2 (np.round 2
            (pd.sum (custo_previsto_clean <$> pd.group area k D))))
         (pd.group_keys area D)
  /\ planned_costs (calculate_kpis df) = pd.sum (custo_previsto_clean <$> D)
  /\ concat (fmap (λ k, pd.group area k D) (pd.group_keys area D)) ≡ₚ D
  /\ (exact_whole (custo_previsto_clean <$> D) = true ->
      pd.sum (Area.custo_previsto_total <$> get_area_analysis df)
      = planned_costs (calculate_kpis df)).
Proof.
  intros D Ha. split; [apply area_planned_column|]. split; [done|].
  split; [by apply groups_partition|].
  intros Hw%exact_whole_two_decimals.
  rewrite area_planned_column. by apply planned_group_sums.
Qed.

Lemma area_planned_partition_witness :
  concat (fmap (λ k, pd.group area k (pd.drop_duplicates project_id whole_cost_table))
            (pd.group_keys area (pd.drop_duplicates project_id whole_cost_table)))
  ≡ₚ pd.drop_duplicates project_id whole_cost_table
  /\ pd.sum (Area.custo_previsto_total <$> get_area_analysis whole_cost_table)
     = planned_costs (calculate_kpis whole_cost_table)
  /\ planned_costs (calculate_kpis whole_cost_table) = of_Z 1750.
Proof.
  destruct (area_planned_partition whole_cost_table) as (_ & _ & Hp & Hs).
  - repeat constructor; by eexists.
  - split; [exact Hp|]. split; [apply Hs; vm_compute; reflexivity | by_eval].
Defined.

(** With a third decimal in a planned cost, or with a project that has no
    department, the departments do not add up to the indicator. *)
Lemma area_planned_sum_differs :
  (exists df, load_and_clean_data third_decimal_table = Ok df
     /\ pd.sum (Area.custo_previsto_total <$> get_area_analysis df) = of_Z 10
     /\ planned_costs (calculate_kpis df) = dec 10004 3
     /\ pd.sum (Area.custo_previsto_total <$> get_area_analysis df)
        ≠ planned_costs (calculate_kpis df))
  /\ (exists df, load_and_clean_data no_area_table = Ok df
     /\ pd.sum (Area.custo_previsto_total <$> get_area_analysis df) = zero
     /\ planned_costs (calculate_kpis df) = of_Z 100
     /\ pd.sum (Area.custo_previsto_total <$> get_area_analysis df)
        ≠ planned_costs (calculate_kpis df)).
Proof.
  split; eexists; (split; [reflexivity|]);
    repeat split; try by_eval;
    apply (bool_decide_eq_false_1 (_ = _)); vm_compute; reflexivity.
Qed.

(** In binary64 the planned costs 1.10 and 2.20 add up to a number above the
    one the literal 3.30 denotes, which is what rounding the sum to two
    decimals gives: with fractions, sums taken in another grouping differ
    in the last place. *)
Lemma two_decimal_sum_rounds :
  PrimFloat.add (B64.of_float64 (dec 110 2)) (B64.of_float64 (dec 220 2))
  ≠ B64.of_float64 (dec 330 2).
Proof.
  intros H. apply (f_equal FloatOps.Prim2SF) in H. vm_compute in H. discriminate.
Qed.

End Areas.

Section Status.

Lemma lookup_list_to_map_keys {V} (g : string -> V) (ks : list string) (s : string) :
  (list_to_map (fmap (λ k, (k, g k)) ks) : gmap string V) !! s
  = if decide (s ∈ ks) then Some (g s) else None.
Proof.
  induction ks as [|k ks IH].
  - rewrite decide_False by apply not_elem_of_nil. apply lookup_empty.
  - rewrite fmap_cons, list_to_map_cons. simpl. rewrite lookup_insert.
    destruct (decide (k = s)) as [->|Hk].
    + by rewrite decide_True by apply list_elem_of_here.
    + rewrite IH. destruct (decide (s ∈ ks)) as [Hs|Hs].
      * by rewrite decide_True by (by apply list_elem_of_further).
      * rewrite decide_False; [done|]. intros [->|?]%elem_of_cons; done.
Qed.

Lemma omap_id_fmap {A B} (f : A -> option B) (l : list A) :
  omap id (f <$> l) = omap f l.
Proof.
  induction l as [|a l IH]; [done|].
  change (match f a with Some b => b :: omap id (f <$> l) | None => omap id (f <$> l) end
          = match f a with Some b => b :: omap f l | None => omap f l end).
  by rewrite IH.
Qed.

Lemma nunique_size (l : list (option string)) :
  pd.nunique l = size (list_to_set (omap id l) : gset string).
Proof.
  unfold pd.nunique.
  rewrite <- (size_list_to_set (C := gset string)) by apply NoDup_remove_dups.
  f_equal. apply set_eq. intros x.
  by rewrite !elem_of_list_to_set, elem_of_remove_dups.
Qed.

Lemma groupby_nunique_lookup (df : list row) (s : string) :
  pd.to_dict (pd.groupby_nunique status project_id df) !! s
  = count_by_status df s.
Proof.
  assert (Hser : pd.groupby_nunique status project_id df
                 = fmap (λ k, (k, pd.nunique (project_id <$> pd.group status k df)))
                        (pd.group_keys status df)).
  { unfold pd.groupby_nunique, pd.groupby. by rewrite <- list_fmap_compose. }
  unfold pd.to_dict. rewrite Hser.
  rewrite (lookup_list_to_map_keys
             (λ k, pd.nunique (project_id <$> pd.group status k df))).
  unfold count_by_status, distinct_projects.
  rewrite nunique_size, omap_id_fmap.
  destruct (decide (s ∈ pd.group_keys status df)) as [Hs|Hs];
    rewrite elem_of_group_keys in Hs.
  - rewrite bool_decide_eq_true_2; [done|].
    apply list_elem_of_fmap. destruct Hs as (r & ? & ?). eauto.
  - rewrite bool_decide_eq_false_2; [done|].
    intros (r & ? & ?)%list_elem_of_fmap. apply Hs. eauto.
Qed.

(** C10: the status counts of the indicators and those of the status
    distribution are the same mapping, and the count of a status is the
    number of distinct projects among the rows of that status. *)
Theorem status_counts_agree (df : list row) :
  status_counts (calculate_kpis df) = (get_status_distribution df).1
  /\ forall s, status_counts (calculate_kpis df) !! s = count_by_status df s.
Proof.
  split; [done|]. intros s. apply groupby_nunique_lookup.
Qed.

Lemma status_counts_example :
  status_counts (calculate_kpis two_area_table)
  = {[ "em dia" := 1%nat; "atrasado" := 1%nat; "critico" := 1%nat ]}.
Proof. by_eval. Qed.

End Status.

Section Costs.

Local Open Scope Qc_scope.

(** Every row of the comparison carries the rounded variance of its two
    costs, and its actual cost is never missing. *)
Lemma cost_rows_variance (df : list row) :
  Forall (λ c, Cost.variance_percent c
               = variance_of (Cost.custo_real_total c) (Cost.custo_previsto_clean c)
               /\ np.isnan (Cost.custo_real_total c) = false)
    (prepare_cost_comparison_data df).
Proof.
  unfold prepare_cost_comparison_data, set_variance, fillna_real, merge_left.
  rewrite <- !list_fmap_compose. apply Forall_fmap, Forall_true.
  intros p. simpl. split; [done|]. unfold pd.fillna.
  by destruct (pd.at_label _ _).
Qed.

(** With a planned cost other than zero the variance is the rounded
    quotient. *)
Lemma variance_of_nonzero (a p : Qc) :
  p ≠ 0 ->
  variance_of (Finite a) (Finite p)
  = np.round 2 (Finite ((a - p) / p * Q2Qc (inject_Z 100))).
Proof.
  intros Hp. unfold variance_of. f_equal. simpl.
  by rewrite bool_decide_eq_false_2.
Qed.

(** With a planned cost of zero the variance is an infinity or NaN. *)
Lemma variance_of_zero_planned (a : Qc) :
  variance_of (Finite a) zero
  = if decide (a = 0) then NaN else if decide (0 <= a) then PosInf else NegInf.
Proof.
  unfold variance_of, zero, of_Z, fsub, fneg, fadd, fdiv, nonneg.
  change (Q2Qc (inject_Z 0)) with 0. replace (a + - 0) with a by ring.
  rewrite (bool_decide_eq_true_2 (0 = 0)) by done.
  destruct (decide (a = 0)) as [Ha|Ha].
  - by rewrite bool_decide_eq_true_2.
  - rewrite bool_decide_eq_false_2 by done.
    destruct (decide (0 <= a)) as [Hs|Hs].
    + by rewrite bool_decide_eq_true_2.
    + by rewrite bool_decide_eq_false_2.
Qed.

(** C4: for a project with a planned cost of 0 and actual costs of 100 the
    comparison holds a variance of plus infinity, not 0.0: the division by
    the planned cost has no guard. *)
Theorem zero_planned_variance_is_infinite :
  exists df, load_and_clean_data zero_planned_table = Ok df
    /\ Cost.custo_previsto_clean <$> prepare_cost_comparison_data df = [zero]
    /\ Cost.custo_real_total <$> prepare_cost_comparison_data df = [of_Z 100]
    /\ Cost.variance_percent <$> prepare_cost_comparison_data df = [PosInf].
Proof.
  eexists. split; [reflexivity|]. repeat split; by_eval.
Qed.

End Costs.

Section Frames.

Local Open Scope list_scope.

Implicit Types (σ τ : store) (l i : loc) (o : object).

Lemma bind_Some {A B} (m : St A) (f : A -> St B) σ a σ' :
  m σ = Some (a, σ') -> (m ≫= f) σ = f a σ'.
Proof. unfold mbind, St_bind. by intros ->. Qed.

Lemma load_old σ τ l o :
  σ !! l = Some o -> load l (σ ++ τ) = Some (o, σ ++ τ).
Proof. intros H. unfold load. by rewrite (lookup_app_l_Some _ _ _ _ H). Qed.

Lemma load_new σ τ i o :
  τ !! i = Some o -> load (length σ + i) (σ ++ τ) = Some (o, σ ++ τ).
Proof.
  intros H. unfold load. rewrite lookup_app_r by lia.
  assert (E : (length σ + i - length σ)%nat = i) by lia. by rewrite E, H.
Qed.

Lemma alloc_app σ τ o :
  alloc o (σ ++ τ) = Some (length σ + length τ, σ ++ (τ ++ [o])).
Proof. unfold alloc. by rewrite length_app, <- app_assoc. Qed.

Lemma assign_new σ τ i o :
  i < length τ ->
  assign (length σ + i) o (σ ++ τ) = Some ((), σ ++ <[i := o]> τ).
Proof.
  intros H. unfold assign. rewrite decide_True by (rewrite length_app; lia).
  by rewrite insert_app_r.
Qed.


(** The typed loads and the binds of a run are resolved one after the
    other; the store is kept in the form [σ ++ τ], where [σ] is the store
    the function was called on and [τ] holds what it allocated. *)
Ltac run_load :=
  first [ erewrite (bind_Some (load _)) by (apply load_old; eassumption)
        | erewrite (bind_Some (load _)) by (apply load_new; reflexivity) ].
Ltac run_step :=
  first
    [ erewrite (bind_Some (load_clean _)) by (unfold load_clean; run_load; reflexivity)
    | erewrite (bind_Some (load_agg _)) by (unfold load_agg; run_load; reflexivity)
    | erewrite (bind_Some (load_area _)) by (unfold load_area; run_load; reflexivity)
    | erewrite (bind_Some (load_actual _)) by (unfold load_actual; run_load; reflexivity)
    | erewrite (bind_Some (load_planned _)) by (unfold load_planned; run_load; reflexivity)
    | erewrite (bind_Some (load_merged _)) by (unfold load_merged; run_load; reflexivity)
    | erewrite (bind_Some (load_dict _)) by (unfold load_dict; run_load; reflexivity)
    | erewrite (bind_Some (alloc _)) by apply alloc_app
    | erewrite (bind_Some (assign _ _)) by (apply assign_new; simpl; lia) ];
  simpl app; simpl length; try simpl (<[_ := _]> _).

Lemma run_calculate_kpis σ l (t : list row) :
  σ !! l = Some (Clean t) ->
  Stateful.calculate_kpis l σ = Some (calculate_kpis t, σ).
Proof.
  intros H. unfold Stateful.calculate_kpis, load_clean, load.
  unfold mbind, St_bind. by rewrite H.
Qed.

Lemma run_get_area_analysis σ l (t : list row) :
  σ !! l = Some (Clean t) ->
  exists τ, Stateful.get_area_analysis l σ = Some (get_area_analysis t, σ ++ τ).
Proof.
  intros H.
  cut (exists τ, Stateful.get_area_analysis l (σ ++ [])
                 = Some (get_area_analysis t, σ ++ τ)); [by rewrite app_nil_r|].
  unfold Stateful.get_area_analysis.
  repeat run_step.
  eexists. unfold load_area. run_load. reflexivity.
Qed.

Lemma run_prepare_cost_comparison_data σ l (t : list row) :
  σ !! l = Some (Clean t) ->
  exists τ, Stateful.prepare_cost_comparison_data l σ
            = Some (prepare_cost_comparison_data t, σ ++ τ).
Proof.
  intros H.
  cut (exists τ, Stateful.prepare_cost_comparison_data l (σ ++ [])
                 = Some (prepare_cost_comparison_data t, σ ++ τ));
    [by rewrite app_nil_r|].
  unfold Stateful.prepare_cost_comparison_data.
  repeat run_step.
  eexists. unfold load_cost. run_load. reflexivity.
Qed.

Lemma default_colors_cons l (status : string) (keys : list string) :
  Stateful.default_colors l (status :: keys)
  = (d ← load_dict l;
     (if decide (is_Some (d !! status)) then mret ()
      else assign l (Dict (<[status := "#A9A9A9"]> d)));;
     Stateful.default_colors l keys).
Proof. done. Qed.

(** The loop over the counted statuses folds [set_default_color] over the
    dictionary it was given, in place. *)
Lemma run_default_colors (keys : list string) σ τ i (d : gmap string string) :
  τ !! i = Some (Dict d) ->
  Stateful.default_colors (length σ + i) keys (σ ++ τ)
  = Some ((), σ ++ <[i := Dict (foldl set_default_color d keys)]> τ).
Proof.
  revert τ d. induction keys as [|status keys IH]; intros τ d Hd.
  - rewrite list_insert_id by done. done.
  - assert (Hi : i < length τ) by (by eapply lookup_lt_Some).
    rewrite default_colors_cons.
    erewrite (bind_Some (load_dict _))
      by (unfold load_dict; erewrite (bind_Some (load _))
            by (apply load_new; exact Hd); reflexivity).
    change (foldl set_default_color d (status :: keys))
      with (foldl set_default_color (set_default_color d status) keys).
    unfold set_default_color at 2.
    destruct (decide (is_Some (d !! status))) as [Hs|Hs].
    + erewrite (bind_Some (mret ())) by reflexivity. by apply IH.
    + erewrite (bind_Some (assign _ _)) by (by apply assign_new).
      rewrite (IH _ (<[status := "#A9A9A9"]> d))
        by (by apply list_lookup_insert_eq).
      by rewrite list_insert_insert_eq.
Qed.

Lemma run_get_status_distribution σ l (t : list row) :
  σ !! l = Some (Clean t) ->
  exists τ, Stateful.get_status_distribution l σ
            = Some (get_status_distribution t, σ ++ τ).
Proof.
  intros H.
  cut (exists τ, Stateful.get_status_distribution l (σ ++ [])
                 = Some (get_status_distribution t, σ ++ τ));
    [by rewrite app_nil_r|].
  unfold Stateful.get_status_distribution.
  do 2 run_step.
  erewrite (bind_Some (Stateful.default_colors _ _))
    by (apply run_default_colors; reflexivity).
  run_step. eexists. reflexivity.
Qed.

(** C9: each of the four aggregation functions, called on the location of
    a cleaned table, returns what the function computes from the table and
    leaves every object of the store, the table among them, as it was; a
    later call of any of the four therefore finds the same table. *)
Theorem aggregations_leave_table σ (df : loc) (t : list row) :
  σ !! df = Some (Clean t) ->
  leaves_store (Stateful.calculate_kpis df) σ (calculate_kpis t)
  /\ leaves_store (Stateful.get_area_analysis df) σ (get_area_analysis t)
  /\ leaves_store (Stateful.get_status_distribution df) σ (get_status_distribution t)
  /\ leaves_store (Stateful.prepare_cost_comparison_data df) σ
       (prepare_cost_comparison_data t).
Proof.
  intros H. unfold leaves_store. repeat split.
  - exists []. rewrite app_nil_r. by apply run_calculate_kpis.
  - by apply run_get_area_analysis.
  - by apply run_get_status_distribution.
  - by apply run_prepare_cost_comparison_data.
Qed.

(** What a run leaves in place is still there afterwards. *)
Lemma leaves_store_lookup {A} (m : St A) σ (a : A) l o :
  leaves_store m σ a -> σ !! l = Some o ->
  exists σ', m σ = Some (a, σ') /\ σ' !! l = Some o.
Proof.
  intros [τ Hm] Hl. exists (σ ++ τ). split; [done|]. by apply lookup_app_l_Some.
Qed.

(** Two calls in a row, in either order, return what each call returns on
    its own. *)
Lemma area_then_kpis σ (df : loc) (t : list row) :
  σ !! df = Some (Clean t) ->
  exists σ',
    (a ← Stateful.get_area_analysis df; k ← Stateful.calculate_kpis df; mret (a, k)) σ
    = Some ((get_area_analysis t, calculate_kpis t), σ')
    /\ σ' !! df = Some (Clean t).
Proof.
  intros H.
  destruct (run_get_area_analysis σ df t H) as [τ Ha].
  assert (H' : (σ ++ τ) !! df = Some (Clean t)) by (by apply lookup_app_l_Some).
  exists (σ ++ τ). split; [|done].
  erewrite bind_Some by exact Ha.
  erewrite bind_Some by (by apply run_calculate_kpis). done.
Qed.

Lemma aggregations_leave_table_witness :
  let σ := [Dict known_colors; Clean two_area_table] in
  leaves_store (Stateful.calculate_kpis 1) σ (calculate_kpis two_area_table)
  /\ leaves_store (Stateful.get_area_analysis 1) σ
       (get_area_analysis two_area_table)
  /\ leaves_store (Stateful.get_status_distribution 1) σ
       (get_status_distribution two_area_table)
  /\ leaves_store (Stateful.prepare_cost_comparison_data 1) σ
       (prepare_cost_comparison_data two_area_table).
Proof.
  exact (aggregations_leave_table [Dict known_colors; Clean two_area_table]
           1 two_area_table eq_refl).
Defined.

End Frames.

Section LoaderExtras.

Lemma clean_cost_notnan (c : cell) : np.isnan (clean_cost c) = false.
Proof.
  unfold clean_cost, pd.fillna. by destruct (pd.to_numeric c) eqn:E; rewrite ?E.
Qed.

Lemma clean_row_costs (r : Raw.row) (c : row) :
  clean_row r = Ok c ->
  valor_clean c = clean_cost (Raw.valor r)
  /\ custo_previsto_clean c = clean_cost (Raw.custo_previsto r).
Proof.
  unfold clean_row. destruct (clean_conclusao _); simpl; [|discriminate].
  by intros [= <-].
Qed.

(** X1: in every table the loader returns, no actual cost and no planned
    cost is missing: a cost cell that is empty or no number has become 0. *)
Theorem costs_never_missing (raw : list Raw.row) (df : list row) :
  load_and_clean_data raw = Ok df ->
  Forall (λ c, np.isnan (valor_clean c) = false
               /\ np.isnan (custo_previsto_clean c) = false) df.
Proof.
  unfold load_and_clean_data. intros H%traverse_Ok.
  apply Forall2_Forall_r with (1 := H).
  apply List.Forall_forall. intros r _ c [-> ->]%clean_row_costs.
  split; apply clean_cost_notnan.
Qed.

Lemma costs_never_missing_witness :
  exists df, load_and_clean_data dirty_cost_table = Ok df
    /\ valor_clean <$> df = [zero; of_Z 600]
    /\ custo_previsto_clean <$> df = [zero; zero]
    /\ Forall (λ c, np.isnan (valor_clean c) = false
                    /\ np.isnan (custo_previsto_clean c) = false) df.
Proof.
  eexists. split; [reflexivity|]. split; [by_eval|]. split; [by_eval|].
  apply (costs_never_missing dirty_cost_table). reflexivity.
Defined.

Lemma traverse_fmap_Ok {A B} (f : A -> result B) (g : A -> B) (l : list A) :
  Forall (λ a, f a = Ok (g a)) l -> traverse f l = Ok (g <$> l).
Proof.
  induction 1 as [|a l Ha _ IH]; [done|].
  simpl. rewrite Ha. simpl. rewrite IH. done.
Qed.

Lemma clean_conclusao_no_percent (c : cell) :
  no_percent c = true -> clean_conclusao c = Ok (pd.to_numeric c).
Proof.
  destruct c as [|s|x]; try done. simpl.
  by destruct (contains "%" s).
Qed.

(** X2: the loader raises only on a percent text.  When no row with an
    identifier holds a percent sign in its completion cell, the loader
    returns a table, whatever the other cells hold: one row per row with an
    identifier, with the completion [to_numeric] gives, a text that is no
    number having become a missing value.  A percent text in a row without
    identifier does no harm, the row being dropped first. *)
Theorem load_without_percent (raw : list Raw.row) :
  Forall (λ r, keep_row r = true -> no_percent (Raw.conclusao r) = true) raw ->
  exists df, load_and_clean_data raw = Ok df
    /\ conclusao_clean <$> df
       = fmap (λ r, pd.to_numeric (Raw.conclusao r))
           (filter (λ r, keep_row r = true) raw).
Proof.
  intros H. unfold load_and_clean_data.
  set (g := λ r : Raw.row,
         {| project_id := Raw.project_id r; area := Raw.area r;
            status := Raw.status r; conclusao := Raw.conclusao r;
            valor := Raw.valor r; custo_previsto := Raw.custo_previsto r;
            conclusao_clean := pd.to_numeric (Raw.conclusao r);
            valor_clean := clean_cost (Raw.valor r);
            custo_previsto_clean := clean_cost (Raw.custo_previsto r) |}).
  exists (g <$> filter (λ r, keep_row r = true) raw). split.
  - apply traverse_fmap_Ok. apply Forall_forall.
    intros r [Hk Hin]%list_elem_of_filter.
    rewrite Forall_forall in H. unfold clean_row.
    by rewrite (clean_conclusao_no_percent _ (H r Hin Hk)).
  - by rewrite <- list_fmap_compose.
Qed.

Lemma load_without_percent_witness :
  exists df, load_and_clean_data no_percent_table = Ok df
    /\ conclusao_clean <$> df = [NaN; dec 2 1].
Proof.
  destruct (load_without_percent no_percent_table) as (df & Hdf & Hc).
  - apply Forall_cons. split; [intros Hk; vm_compute in Hk; discriminate|].
    apply Forall_cons. split; [reflexivity|].
    apply Forall_cons. split; [reflexivity|]. constructor.
  - exists df. split; [exact Hdf|]. rewrite Hc. by_eval.
Defined.

Lemma string_app_cons (a : ascii) (s t : string) :
  String a s ++ t = String a (s ++ t).
Proof. reflexivity. Qed.

Lemma string_app_assoc (s t u : string) : (s ++ t) ++ u = s ++ (t ++ u).
Proof. induction s as [|a s IH]; [done|]. by rewrite !string_app_cons, IH. Qed.

Lemma string_app_nil_r (s : string) : s ++ "" = s.
Proof. induction s as [|a s IH]; [done|]. by rewrite string_app_cons, IH. Qed.

Lemma contains_cons (c a : ascii) (s : string) :
  contains c (String a s) = if decide (a = c) then true else contains c s.
Proof. reflexivity. Qed.

Lemma replace_cons (c a : ascii) (new s : string) :
  replace c new (String a s)
  = if decide (a = c) then new ++ replace c new s
    else String a (replace c new s).
Proof. reflexivity. Qed.

Lemma contains_app (c : ascii) (s t : string) :
  contains c (s ++ t) = contains c s || contains c t.
Proof.
  induction s as [|a s IH]; [done|].
  rewrite string_app_cons, !contains_cons, IH. by destruct (decide (a = c)).
Qed.

Lemma replace_absent (c : ascii) (new s : string) :
  contains c s = false -> replace c new s = s.
Proof.
  induction s as [|a s IH]; [done|]. rewrite contains_cons, replace_cons.
  destruct (decide (a = c)); [discriminate|]. intros H. by rewrite IH.
Qed.

Lemma replace_app (c : ascii) (new s t : string) :
  replace c new (s ++ t) = replace c new s ++ replace c new t.
Proof.
  induction s as [|a s IH]; [done|].
  rewrite string_app_cons, !replace_cons, IH.
  destruct (decide (a = c)); [|done]. by rewrite string_app_assoc.
Qed.

Lemma replace_percent_comma (s : string) :
  replace "," "." (replace "%" "" (replace "," "." s))
  = replace "," "." (replace "%" "" s).
Proof.
  induction s as [|a s IH]; [done|]. rewrite !replace_cons.
  destruct (decide (a = ","%char)) as [->|Hc].
  - rewrite decide_False by done.
    change ("." ++ replace "," "." s) with (String "." (replace "," "." s)).
    rewrite !replace_cons, decide_False by done.
    rewrite !replace_cons, decide_False, decide_True by done.
    change ("." ++ ?t) with (String "." t). by rewrite IH.
  - rewrite !replace_cons. destruct (decide (a = "%"%char)) as [->|Hp].
    + change ("" ++ ?t) with t. apply IH.
    + rewrite !replace_cons, !decide_False by done. by rewrite IH.
Qed.

(** X3: in a completion text the percent sign may stand anywhere, and the
    comma stands for the period: the sign in front of a text cleans to what
    the sign after it cleans to (a number or an exception), and so does
    the text with its commas written as periods. *)
Theorem percent_sign_anywhere (s : string) :
  clean_conclusao (CStr ("%" ++ s)) = clean_conclusao (CStr (s ++ "%"))
  /\ clean_conclusao (CStr (replace "," "." s ++ "%"))
     = clean_conclusao (CStr (s ++ "%")).
Proof.
  assert (Hc : forall t, contains "%" (t ++ "%") = true)
    by (intros t; by rewrite contains_app, orb_true_r).
  assert (Hr : forall t, replace "%" "" (t ++ "%") = replace "%" "" t).
  { intros t. rewrite replace_app. change (replace "%" "" "%") with "".
    apply string_app_nil_r. }
  unfold clean_conclusao. rewrite !Hc, !Hr.
  change (contains "%" ("%" ++ s)) with true.
  change (replace "%" "" ("%" ++ s)) with (replace "%" "" s).
  by rewrite replace_percent_comma.
Qed.

End LoaderExtras.

Section ProjectExtras.

Context {R : Type} (key : R -> option string).

Lemma elem_of_drop_duplicates_from (seen : list (option string)) (df : list R) (r : R) :
  r ∈ pd.drop_duplicates_from key seen df -> r ∈ df /\ key r ∉ seen.
Proof.
  revert seen. induction df as [|a df IH]; intros seen; simpl.
  - by intros ?%elem_of_nil.
  - case_decide as Ha.
    + intros [? ?]%IH. split; [by apply list_elem_of_further | done].
    + intros [->|[? Hn]%IH]%elem_of_cons.
      * split; [apply list_elem_of_here | done].
      * split; [by apply list_elem_of_further|].
        intros ?. apply Hn. by apply list_elem_of_further.
Qed.

Lemma drop_duplicates_from_NoDup (seen : list (option string)) (df : list R) :
  NoDup (key <$> pd.drop_duplicates_from key seen df).
Proof.
  revert seen. induction df as [|a df IH]; intros seen; simpl; [constructor|].
  case_decide as Ha; [apply IH|].
  rewrite fmap_cons. constructor; [|apply IH].
  intros (r & Hk & [_ Hr]%elem_of_drop_duplicates_from)%list_elem_of_fmap.
  apply Hr. rewrite <- Hk. apply list_elem_of_here.
Qed.

Lemma drop_duplicates_from_covers (seen : list (option string)) (df : list R) (r : R) :
  r ∈ df -> key r ∉ seen ->
  exists r0, r0 ∈ pd.drop_duplicates_from key seen df /\ key r0 = key r.
Proof.
  revert seen. induction df as [|a df IH]; intros seen; simpl.
  - by intros ?%elem_of_nil.
  - intros [->|Hin]%elem_of_cons Hn.
    + rewrite decide_False by done. exists a. split; [apply list_elem_of_here|done].
    + case_decide as Ha; [by apply IH|].
      destruct (decide (key r = key a)) as [E|E].
      * exists a. split; [apply list_elem_of_here | done].
      * destruct (IH (key a :: seen) Hin) as (r0 & ? & ?).
        { intros [?|?]%elem_of_cons; done. }
        exists r0. split; [by apply list_elem_of_further | done].
Qed.

(** The rows [drop_duplicates] keeps have distinct keys, are rows of the
    table, and every key of the table is the key of one of them. *)
Lemma drop_duplicates_spec (df : list R) :
  NoDup (key <$> pd.drop_duplicates key df)
  /\ (forall r, r ∈ pd.drop_duplicates key df -> r ∈ df)
  /\ (forall r, r ∈ df -> exists r0, r0 ∈ pd.drop_duplicates key df /\ key r0 = key r).
Proof.
  split; [apply drop_duplicates_from_NoDup|]. split.
  - intros r Hr. by apply elem_of_drop_duplicates_from in Hr as [? _].
  - intros r Hr. apply drop_duplicates_from_covers; [done | apply not_elem_of_nil].
Qed.

(** The keys [drop_duplicates] keeps are the group keys, up to order. *)
Lemma drop_duplicates_keys_Permutation (df : list R) :
  Forall (λ r, is_Some (key r)) df ->
  key <$> pd.drop_duplicates key df ≡ₚ Some <$> pd.group_keys key df.
Proof.
  intros Hsome. destruct (drop_duplicates_spec df) as (Hnd & Hsub & Hcov).
  apply NoDup_Permutation; [done | |].
  - apply (NoDup_fmap_2 _), group_keys_NoDup.
  - intros x. rewrite !list_elem_of_fmap. split.
    + intros (r & -> & Hr%Hsub).
      rewrite Forall_forall in Hsome. destruct (Hsome r Hr) as [k Hk].
      exists k. split; [done|]. apply elem_of_group_keys. eauto.
    + intros (k & -> & (r & Hr & Hk)%elem_of_group_keys).
      destruct (Hcov r Hr) as (r0 & ? & E). exists r0. split; [congruence | done].
Qed.

Lemma nunique_drop_duplicates (df : list R) :
  Forall (λ r, is_Some (key r)) df ->
  pd.nunique (key <$> df) = length (pd.drop_duplicates key df).
Proof.
  intros Hsome.
  rewrite <- (length_fmap key (pd.drop_duplicates key df)).
  rewrite (drop_duplicates_keys_Permutation df Hsome), length_fmap.
  unfold pd.nunique, pd.group_keys.
  by rewrite merge_sort_Permutation, omap_id_fmap.
Qed.

End ProjectExtras.

Section KpiExtras.

Local Open Scope Qc_scope.

(** X4: the cost comparison holds one row per project, in the order in
    which the projects first appear and with no identifier twice; on a table
    without missing identifiers the number of its rows is the total of
    projects of the indicators. *)
Theorem cost_rows_are_projects (df : list row) :
  Forall (λ r, is_Some (project_id r)) df ->
  Cost.project_id <$> prepare_cost_comparison_data df
    = project_id <$> pd.drop_duplicates project_id df
  /\ NoDup (Cost.project_id <$> prepare_cost_comparison_data df)
  /\ length (prepare_cost_comparison_data df) = total_projects (calculate_kpis df).
Proof.
  intros Hsome.
  assert (Hcol : Cost.project_id <$> prepare_cost_comparison_data df
                 = project_id <$> pd.drop_duplicates project_id df).
  { unfold prepare_cost_comparison_data, set_variance, fillna_real, merge_left,
      planned_of.
    by rewrite <- !list_fmap_compose. }
  split; [done|]. split.
  - rewrite Hcol. apply drop_duplicates_spec.
  - rewrite <- (length_fmap Cost.project_id), Hcol, length_fmap.
    symmetry. by apply nunique_drop_duplicates.
Qed.

Lemma cost_rows_are_projects_witness :
  Cost.project_id <$> prepare_cost_comparison_data two_area_table
    = [Some "P1"; Some "P3"; Some "P2"]
  /\ length (prepare_cost_comparison_data two_area_table) = 3%nat
  /\ total_projects (calculate_kpis two_area_table) = 3%nat.
Proof.
  destruct (cost_rows_are_projects two_area_table) as (H1 & _ & H3).
  { repeat constructor; by eexists. }
  rewrite <- H3. split; [by rewrite H1|]. split; reflexivity.
Defined.

(** X5: in a table without missing identifiers every status of the status
    counts stands for at least one project and for no more projects than
    the table has. *)
Theorem status_count_bounds (df : list row) (s : string) (n : nat) :
  Forall (λ r, is_Some (project_id r)) df ->
  status_counts (calculate_kpis df) !! s = Some n ->
  (1 <= n <= total_projects (calculate_kpis df))%nat.
Proof.
  intros Hsome Hs.
  change (status_counts (calculate_kpis df))
    with (pd.to_dict (pd.groupby_nunique status project_id df)) in Hs.
  rewrite groupby_nunique_lookup in Hs. unfold count_by_status in Hs.
  case_bool_decide as Hin; [|discriminate]. injection Hs as <-.
  unfold distinct_projects. split.
  - apply list_elem_of_fmap in Hin as (r & Hr & Hin).
    rewrite Forall_forall in Hsome. destruct (Hsome r Hin) as [i Hi].
    assert (Hel : i ∈ (list_to_set (omap project_id
                         (filter (λ r, status r = Some s) df)) : gset string)).
    { apply elem_of_list_to_set, list_elem_of_omap. exists r.
      split; [|done]. by apply list_elem_of_filter. }
    destruct (decide (size (list_to_set (omap project_id
                (filter (λ r, status r = Some s) df)) : gset string) = 0%nat))
      as [E|E]; [|lia].
    apply size_empty_iff in E. set_solver.
  - change (total_projects (calculate_kpis df)) with (pd.nunique (project_id <$> df)).
    rewrite nunique_size, omap_id_fmap. apply subseteq_size.
    intros i. rewrite !elem_of_list_to_set, !list_elem_of_omap.
    intros (r & [_ ?]%list_elem_of_filter & ?). eauto.
Qed.

Lemma status_count_bounds_witness :
  (1 <= 1 <= total_projects (calculate_kpis two_area_table))%nat.
Proof.
  apply (status_count_bounds two_area_table "critico" 1).
  - repeat constructor; by eexists.
  - by_eval.
Defined.

End KpiExtras.

Section SumExtras.

Local Open Scope Qc_scope.

Lemma Qc_of_nat_S (n : nat) :
  Q2Qc (inject_Z (Z.of_nat (S n))) = Q2Qc (inject_Z (Z.of_nat n)) + 1.
Proof.
  replace (Z.of_nat (S n)) with (Z.of_nat n + 1)%Z by lia.
  by rewrite Q2Qc_inject_Z_add.
Qed.

Lemma Qc_of_nat_nonneg (n : nat) : 0 <= Q2Qc (inject_Z (Z.of_nat n)).
Proof.
  induction n as [|n IH]; [done|]. rewrite Qc_of_nat_S.
  by apply Qcplus_nonneg_nonneg.
Qed.

Lemma qsum_unit_bounds (qs : list Qc) :
  Forall (λ q, 0 <= q <= 1) qs ->
  0 <= qsum qs <= Q2Qc (inject_Z (Z.of_nat (length qs))).
Proof.
  induction 1 as [|q qs [H0 H1] _ [IH0 IH1]]; [done|].
  rewrite qsum_cons. cbn [length]. rewrite Qc_of_nat_S. split.
  - by apply Qcplus_nonneg_nonneg.
  - rewrite (Qcplus_comm q). transitivity (qsum qs + 1).
    + by apply Qcplus_le_mono_l.
    + by apply Qcplus_le_mono_r.
Qed.

Lemma arithmetic_mean_unit (qs : list Qc) :
  qs ≠ [] -> Forall (λ q, 0 <= q <= 1) qs -> 0 <= arithmetic_mean qs <= 1.
Proof.
  intros Hne Hq. destruct (qsum_unit_bounds _ Hq) as [Hs0 Hs1].
  unfold arithmetic_mean.
  set (n := Q2Qc (inject_Z (Z.of_nat (length qs)))) in *.
  assert (Hn : 0 < n).
  { subst n. destruct qs as [|q qs]; [done|]. cbn [length].
    rewrite Qc_of_nat_S. apply Qcplus_nonneg_pos; [apply Qc_of_nat_nonneg | done]. }
  assert (Hn0 : n ≠ 0) by (intros E; rewrite E in Hn; by apply Qclt_not_eq in Hn).
  split.
  - apply Qcmult_nonneg_nonneg; [done|]. by apply Qclt_le_weak, Qcinv_pos.
  - apply (Qcmult_le_mono_pos_r _ _ n Hn).
    replace (qsum qs / n * n) with (qsum qs) by (by field).
    by rewrite Qcmult_1_l.
Qed.

(** X6: when every completion value is missing or a fraction between 0 and
    1, the average completion of the indicators is a number between 0 and
    1; it is never NaN. *)
Theorem avg_completion_in_unit_interval (df : list row) :
  Forall (λ r, conclusao_clean r = NaN
               \/ exists q, conclusao_clean r = Finite q /\ 0 <= q <= 1) df ->
  exists q, avg_completion (calculate_kpis df) = Finite q /\ 0 <= q <= 1.
Proof.
  intros H.
  assert (Hinf : Forall (λ x, x ≠ PosInf /\ x ≠ NegInf) (conclusao_clean <$> df)).
  { apply Forall_fmap. eapply Forall_impl; [exact H|]. simpl.
    intros r [->|(q & -> & _)]; done. }
  assert (Hq : Forall (λ q, 0 <= q <= 1) (finite_values (conclusao_clean <$> df))).
  { clear Hinf. induction H as [|r l Hr _ IH]; [constructor|].
    rewrite fmap_cons. destruct Hr as [->|(q & -> & Hq)]; [done|].
    by constructor. }
  change (avg_completion (calculate_kpis df))
    with (let m := pd.mean (conclusao_clean <$> df) in
          if np.isnan m then zero else m).
  rewrite (mean_finite _ Hinf).
  destruct (finite_values (conclusao_clean <$> df)) as [|q qs].
  - exists 0. by split.
  - eexists. split; [done|]. by apply arithmetic_mean_unit.
Qed.

Lemma avg_completion_in_unit_interval_witness :
  exists q, avg_completion (calculate_kpis mean_example_table) = Finite q
            /\ 0 <= q <= 1.
Proof.
  apply (avg_completion_in_unit_interval mean_example_table).
  apply Forall_cons. split.
  { right. eexists. split; [reflexivity|]. split; by_eval. }
  apply Forall_cons. split; [by left|].
  apply Forall_cons. split; [|constructor].
  right. eexists. split; [reflexivity|]. split; by_eval.
Defined.

Lemma qsum_Permutation (l k : list Qc) : l ≡ₚ k -> qsum l = qsum k.
Proof.
  induction 1 as [|x l k _ IH|x y l|l k m _ IH1 _ IH2]; [done| | |congruence].
  - by rewrite !qsum_cons, IH.
  - rewrite !qsum_cons. ring.
Qed.

Lemma at_label_keys (g : string -> float64) (ks : list string) (k : string) :
  pd.at_label (fmap (λ k, (k, g k)) ks) (Some k)
  = if decide (k ∈ ks) then g k else NaN.
Proof.
  induction ks as [|k' ks IH].
  - by rewrite decide_False by apply not_elem_of_nil.
  - rewrite fmap_cons. simpl. destruct (decide (Some k = Some k')) as [[= ->]|Hk].
    + by rewrite decide_True by apply list_elem_of_here.
    + rewrite IH. destruct (decide (k ∈ ks)) as [Hs|Hs].
      * by rewrite decide_True by (by apply list_elem_of_further).
      * rewrite decide_False; [done|].
        intros [->|?]%elem_of_cons; done.
Qed.

(** The rational behind a finite entry, 0 for the others. *)
Lemma pd_sum_finite_col {T} (col : T -> float64) (l : list T) :
  Forall (λ r, is_finite (col r) = true) l ->
  pd.sum (col <$> l)
  = Finite (qsum (fmap (λ r, match col r with Finite q => q | _ => 0 end) l)).
Proof.
  intros H. rewrite (finite_values_fmap col l H), pd_sum_Finite. do 2 f_equal.
  induction H as [|r l Hr _ IH]; [done|].
  rewrite !fmap_cons. destruct (col r) eqn:E; try done.
  simpl. by rewrite IH.
Qed.

Lemma groupby_sum_series {T} (key : T -> option string) (col : T -> float64)
    (df : list T) :
  pd.groupby_sum key col df
  = fmap (λ k, (k, pd.sum (col <$> pd.group key k df))) (pd.group_keys key df).
Proof. unfold pd.groupby_sum, pd.groupby. by rewrite <- list_fmap_compose. Qed.

(** X7: on a table without missing identifiers whose actual costs are whole
    numbers below 2^53 / 100 in total, the actual costs of the projects in
    the cost comparison add up to the actual costs of the indicators: every
    cost entry is counted once.  (On such costs no addition rounds.) *)
Theorem cost_rows_sum_to_actual (df : list row) :
  Forall (λ r, is_Some (project_id r)) df ->
  exact_whole (valor_clean <$> df) = true ->
  pd.sum (Cost.custo_real_total <$> prepare_cost_comparison_data df)
  = actual_costs (calculate_kpis df).
Proof.
  intros Hid Hw.
  assert (H : Forall (λ r, is_Some (project_id r)
                           /\ is_finite (valor_clean r) = true) df).
  { apply exact_whole_two_decimals in Hw. rewrite Forall_fmap in Hw.
    apply Forall_forall. intros r Hr. rewrite Forall_forall in Hid, Hw.
    split; [by apply Hid|]. by destruct (andb_prop _ _ (Hw r Hr)). }
  clear Hw.
  assert (Hfin : forall l : list row, (forall r, r ∈ l -> r ∈ df) ->
            Forall (λ r, is_finite (valor_clean r) = true) l).
  { intros l Hl. apply Forall_forall. intros r Hr%Hl.
    rewrite Forall_forall in H. by destruct (H r Hr). }
  set (f := λ r : row, match valor_clean r with Finite q => q | _ => 0 end).
  set (h := λ k, qsum (f <$> pd.group project_id k df)).
  change (actual_costs (calculate_kpis df)) with (pd.sum (valor_clean <$> df)).
  rewrite (pd_sum_finite_col valor_clean df) by (by apply Hfin).
  fold f.
  assert (Hcol : Cost.custo_real_total <$> prepare_cost_comparison_data df
                 = fmap (λ p, Finite (default 0 (h <$> project_id p)))
                        (pd.drop_duplicates project_id df)).
  { unfold prepare_cost_comparison_data, set_variance, fillna_real, merge_left,
      planned_of.
    rewrite <- !list_fmap_compose. apply Forall_fmap_ext, Forall_forall.
    intros p Hp. simpl.
    apply drop_duplicates_spec in Hp.
    rewrite Forall_forall in Hid. destruct (Hid p Hp) as [k Hk]. rewrite Hk.
    rewrite groupby_sum_series, at_label_keys.
    rewrite decide_True by (apply elem_of_group_keys; eauto).
    rewrite (pd_sum_finite_col valor_clean)
      by (apply Hfin; intros r Hr; by apply list_elem_of_filter in Hr as [_ ?]).
    done. }
  rewrite Hcol, (pd_sum_Finite_fmap (λ p, default 0 (h <$> project_id p))).
  f_equal.
  transitivity (qsum (fmap (λ o, default 0 (h <$> o))
                      (project_id <$> pd.drop_duplicates project_id df))).
  { by rewrite <- list_fmap_compose. }
  rewrite (qsum_Permutation _ _
             (fmap_Permutation (λ o, default 0 (h <$> o)) _ _
                (drop_duplicates_keys_Permutation project_id df Hid))).
  rewrite <- list_fmap_compose. apply qsum_groups; [apply group_keys_NoDup|].
  apply Forall_forall. intros r Hr. rewrite Forall_forall in Hid.
  destruct (Hid r Hr) as [k Hk]. exists k. split; [done|].
  apply elem_of_group_keys. eauto.
Qed.

Lemma cost_rows_sum_to_actual_witness :
  pd.sum (Cost.custo_real_total <$> prepare_cost_comparison_data two_area_table)
  = of_Z 1230
  /\ actual_costs (calculate_kpis two_area_table) = of_Z 1230.
Proof.
  rewrite (cost_rows_sum_to_actual two_area_table).
  - split; by_eval.
  - repeat constructor; by eexists.
  - vm_compute. reflexivity.
Defined.

End SumExtras.

Section Means.










End Means.

Section AreaExtras.

Local Open Scope Qc_scope.

(** Rounding what is rounded changes nothing. *)
Lemma np_round_idem (k : nat) (x : float64) :
  np.round k (np.round k x) = np.round k x.
Proof.
  destruct x as [q| | |]; try done.
  apply round_fixed_iff. by eexists.
Qed.

Global Instance str_le_total : Total pd.str_le.
Proof. intros a b. apply String.leb_total. Qed.

Lemma area_table_closed_form (df : list row) :
  get_area_analysis df
  = fmap (λ k,
            let g := pd.group area k (pd.drop_duplicates project_id df) in
            Area.mk k
              (pd.count (project_id <$> g))
              (np.round 2 (pd.sum (custo_previsto_clean <$> g)))
              (np.round 2 (pd.mean (conclusao_clean <$> g)))
              (np.round 2 (pd.sum (valor_clean <$> pd.group area k df))))
         (pd.group_keys area (pd.drop_duplicates project_id df)).
Proof.
  unfold get_area_analysis, round_area, set_custo_real, round_agg, area_agg,
    pd.groupby.
  rewrite <- !list_fmap_compose. apply Forall_fmap_ext, Forall_forall.
  intros k (r & Hr & Hk)%elem_of_group_keys. simpl.
  rewrite !np_round_idem, groupby_sum_series, at_label_keys.
  rewrite decide_True; [done|].
  apply elem_of_group_keys. exists r. split; [|done].
  by apply drop_duplicates_spec in Hr.
Qed.

(** X8: the department table row by row.  A department's row counts and
    sums the first rows of the projects that start in it, averages their
    completion, and adds up the actual costs of all rows of the department;
    each figure is rounded to two decimals once, and the aligned column of
    actual costs has a value for every department of the table. *)
Theorem area_table_rows (df : list row) :
  get_area_analysis df
  = fmap (λ k,
            let g := pd.group area k (pd.drop_duplicates project_id df) in
            Area.mk k
              (pd.count (project_id <$> g))
              (np.round 2 (pd.sum (custo_previsto_clean <$> g)))
              (np.round 2 (pd.mean (conclusao_clean <$> g)))
              (np.round 2 (pd.sum (valor_clean <$> pd.group area k df))))
         (pd.group_keys area (pd.drop_duplicates project_id df)).
Proof. apply area_table_closed_form. Qed.

(** X9: the department table has one row per department in which a project
    has its first row, each department once, in ascending order. *)
Theorem area_rows_sorted_distinct (df : list row) :
  NoDup (Area.area <$> get_area_analysis df)
  /\ Sorted pd.str_le (Area.area <$> get_area_analysis df)
  /\ forall a, a ∈ Area.area <$> get_area_analysis df
       <-> exists r, r ∈ pd.drop_duplicates project_id df /\ area r = Some a.
Proof.
  assert (Hcol : Area.area <$> get_area_analysis df
                 = pd.group_keys area (pd.drop_duplicates project_id df)).
  { rewrite area_table_closed_form, <- list_fmap_compose. apply list_fmap_id. }
  rewrite Hcol. split; [apply group_keys_NoDup|]. split.
  - unfold pd.group_keys. apply (Sorted_merge_sort _).
  - intros a. apply elem_of_group_keys.
Qed.

Lemma sum_list_const0 {K} (ks : list K) : sum_list (fmap (λ _, 0%nat) ks) = 0%nat.
Proof. induction ks as [|k ks IH]; [done|]. by rewrite fmap_cons. Qed.

Lemma sum_list_fmap_add {K} (g h : K -> nat) (ks : list K) :
  sum_list (fmap (λ k, (g k + h k)%nat) ks)
  = (sum_list (g <$> ks) + sum_list (h <$> ks))%nat.
Proof.
  induction ks as [|k ks IH]; [done|].
  rewrite !fmap_cons. simpl. rewrite IH. lia.
Qed.

Lemma sum_list_indicator (ks : list string) (k0 : string) :
  NoDup ks -> k0 ∈ ks ->
  sum_list (fmap (λ k, if decide (k0 = k) then 1%nat else 0%nat) ks) = 1%nat.
Proof.
  induction 1 as [|k ks Hk Hnd IH]; [by intros ?%elem_of_nil|].
  intros Hin. rewrite fmap_cons. simpl. case_decide as Hd.
  - subst k.
    rewrite (proj1 (Forall_fmap_ext _ (λ _, 0%nat) ks)); [by rewrite sum_list_const0|].
    apply Forall_forall. intros k' Hk'. case_decide; [by subst|done].
  - apply elem_of_cons in Hin as [->|Hin]; [done|]. by rewrite IH.
Qed.

(** Counting every group and then the groups is counting the table, when
    every row is in a group. *)
Lemma sum_list_groups {T} (key : T -> option string) (ks : list string) (l : list T) :
  NoDup ks ->
  Forall (λ r, exists k, key r = Some k /\ k ∈ ks) l ->
  sum_list (fmap (λ k, length (pd.group key k l)) ks) = length l.
Proof.
  intros Hnd. induction 1 as [|r l (k0 & Hk0 & Hin) _ IH].
  - apply sum_list_const0.
  - change (length (r :: l)) with (1 + length l)%nat.
    rewrite <- IH, <- (sum_list_indicator ks k0 Hnd Hin), <- sum_list_fmap_add.
    f_equal. apply Forall_fmap_ext, Forall_forall. intros k _.
    unfold pd.group. case_decide as Hd.
    + subst k. by rewrite filter_cons_True.
    + by rewrite filter_cons_False by (rewrite Hk0; congruence).
Qed.

Lemma count_all_present {T} (key : T -> option string) (l : list T) :
  Forall (λ r, is_Some (key r)) l -> pd.count (key <$> l) = length l.
Proof.
  unfold pd.count. rewrite omap_id_fmap.
  induction 1 as [|r l [k Hk] _ IH]; [done|].
  cbn. rewrite Hk. cbn. by f_equal.
Qed.

(** X10: on a table in which every row has an identifier and a department,
    the project counts of the departments add up to the total of projects
    of the indicators: a project is counted in one department only, that
    of its first row. *)
Theorem area_counts_sum_to_total (df : list row) :
  Forall (λ r, is_Some (project_id r) /\ is_Some (area r)) df ->
  sum_list (Area.qtd_projetos <$> get_area_analysis df)
  = total_projects (calculate_kpis df).
Proof.
  intros H.
  assert (Hid : Forall (λ r, is_Some (project_id r)) df)
    by (eapply Forall_impl; [exact H|]; by intros r [? _]).
  set (D := pd.drop_duplicates project_id df).
  assert (HD : forall r, r ∈ D -> is_Some (project_id r) /\ is_Some (area r)).
  { intros r Hr%drop_duplicates_spec. rewrite Forall_forall in H. by apply H. }
  change (total_projects (calculate_kpis df)) with (pd.nunique (project_id <$> df)).
  rewrite (nunique_drop_duplicates project_id df Hid). fold D.
  rewrite area_table_closed_form, <- list_fmap_compose. fold D.
  rewrite (proj1 (Forall_fmap_ext _ (λ k, length (pd.group area k D))
                    (pd.group_keys area D))).
  - apply sum_list_groups; [apply group_keys_NoDup|].
    apply Forall_forall. intros r Hr. destruct (HD r Hr) as [_ [k Hk]].
    exists k. split; [done|]. apply elem_of_group_keys. eauto.
  - apply Forall_forall. intros k _. simpl. apply count_all_present.
    apply Forall_forall. intros r [_ Hr]%list_elem_of_filter. by apply HD.
Qed.

Lemma area_counts_sum_to_total_witness :
  sum_list (Area.qtd_projetos <$> get_area_analysis two_area_table) = 3%nat
  /\ total_projects (calculate_kpis two_area_table) = 3%nat.
Proof.
  rewrite (area_counts_sum_to_total two_area_table).
  - split; reflexivity.
  - repeat constructor; by eexists.
Defined.

(** X11: on a table in which every row has an identifier and a department,
    the rows of one project name one department, and the actual costs are
    whole numbers below 2^53 / 100 in total, the actual costs of the
    departments add up to the actual costs of the indicators.  (On such
    costs no addition rounds and [round(2)] changes nothing.) *)
Theorem area_actual_sums_to_kpi (df : list row) :
  Forall (λ r, is_Some (project_id r) /\ is_Some (area r)) df ->
  exact_whole (valor_clean <$> df) = true ->
  (forall r r', r ∈ df -> r' ∈ df ->
     project_id r = project_id r' -> area r = area r') ->
  pd.sum (Area.custo_real_total <$> get_area_analysis df)
  = actual_costs (calculate_kpis df).
Proof.
  intros Hda Hw Hone.
  assert (H : Forall (λ r, is_Some (project_id r) /\ is_Some (area r)
                           /\ two_decimals (valor_clean r) = true) df).
  { apply exact_whole_two_decimals in Hw. rewrite Forall_fmap in Hw.
    apply Forall_forall. intros r Hr. rewrite Forall_forall in Hda, Hw.
    destruct (Hda r Hr). repeat split; [done | done | by apply Hw]. }
  clear Hda Hw.
  set (D := pd.drop_duplicates project_id df).
  set (f := λ r : row, match valor_clean r with Finite q => q | _ => 0 end).
  assert (Hfin : forall l : list row, (forall r, r ∈ l -> r ∈ df) ->
            pd.sum (valor_clean <$> l) = Finite (qsum (f <$> l))
            /\ np.round 2 (pd.sum (valor_clean <$> l)) = pd.sum (valor_clean <$> l)).
  { intros l Hl.
    assert (H2 : Forall (λ x, two_decimals x = true) (valor_clean <$> l)).
    { apply Forall_fmap, Forall_forall. intros r Hr%Hl. simpl.
      rewrite Forall_forall in H. by destruct (H r Hr) as (_ & _ & ?). }
    split; [|by apply sum_two_decimals].
    apply pd_sum_finite_col. apply Forall_forall. intros r Hr.
    rewrite Forall_forall in H2.
    specialize (H2 (valor_clean r)). rewrite list_elem_of_fmap in H2.
    by destruct (andb_prop _ _ (H2 (ex_intro _ r (conj eq_refl Hr)))). }
  change (actual_costs (calculate_kpis df)) with (pd.sum (valor_clean <$> df)).
  rewrite (proj1 (Hfin df (λ _ Hr, Hr))).
  rewrite area_table_closed_form, <- list_fmap_compose. fold D.
  rewrite (proj1 (Forall_fmap_ext _
             (λ k, Finite (qsum (f <$> pd.group area k df))) (pd.group_keys area D))).
  - rewrite (pd_sum_Finite_fmap (λ k, qsum (f <$> pd.group area k df))). f_equal.
    apply qsum_groups; [apply group_keys_NoDup|].
    apply Forall_forall. intros r Hr.
    rewrite Forall_forall in H. destruct (H r Hr) as (_ & [k Hk] & _).
    exists k. split; [done|].
    destruct (proj2 (proj2 (drop_duplicates_spec project_id df)) r Hr)
      as (r0 & Hr0 & Hk0).
    apply elem_of_group_keys. exists r0. split; [done|].
    rewrite <- Hk. apply Hone; [|done|done].
    by apply drop_duplicates_spec in Hr0.
  - apply Forall_forall. intros k _. simpl.
    assert (Hg : forall r, r ∈ pd.group area k df -> r ∈ df)
      by (intros r Hr; by apply list_elem_of_filter in Hr as [_ ?]).
    destruct (Hfin _ Hg) as [Hs Hr]. by rewrite Hr, Hs.
Qed.

Lemma area_actual_sums_to_kpi_witness :
  pd.sum (Area.custo_real_total <$> get_area_analysis two_area_table) = of_Z 1230
  /\ actual_costs (calculate_kpis two_area_table) = of_Z 1230.
Proof.
  rewrite (area_actual_sums_to_kpi two_area_table).
  - split; by_eval.
  - repeat constructor; by eexists.
  - vm_compute. reflexivity.
  - intros r r' Hr Hr' Hp. unfold two_area_table in Hr, Hr'.
    repeat match goal with
           | H : _ ∈ _ :: _ |- _ => apply elem_of_cons in H as [->|H]
           | H : _ ∈ [] |- _ => by apply elem_of_nil in H
           end; first [reflexivity | discriminate Hp].
Defined.

(** When a project has rows in two departments, the costs booked in a
    department no project starts in are in no row of the table. *)
Lemma area_actual_left_out :
  pd.sum (Area.custo_real_total <$> get_area_analysis split_project_table) = of_Z 400
  /\ actual_costs (calculate_kpis split_project_table) = of_Z 600.
Proof. split; by_eval. Qed.

End AreaExtras.

Section StatusExtras.

Lemma foldl_set_default_color (ks : list string) (m : gmap string string) (s : string) :
  foldl set_default_color m ks !! s
  = match m !! s with
    | Some c => Some c
    | None => if decide (s ∈ ks) then Some "#A9A9A9" else None
    end.
Proof.
  revert m. induction ks as [|k ks IH]; intros m.
  - rewrite decide_False by apply not_elem_of_nil. simpl. by destruct (m !! s).
  - change (foldl set_default_color m (k :: ks))
      with (foldl set_default_color (set_default_color m k) ks).
    rewrite IH. unfold set_default_color.
    destruct (decide (is_Some (m !! k))) as [Hk|Hk].
    + destruct (m !! s) eqn:Hs; [done|].
      assert (s ≠ k) by (intros ->; rewrite Hs in Hk; by destruct Hk).
      destruct (decide (s ∈ ks)) as [Hin|Hin].
      * by rewrite decide_True by (by apply list_elem_of_further).
      * rewrite decide_False; [done|]. intros [?|?]%elem_of_cons; done.
    + rewrite lookup_insert. destruct (decide (k = s)) as [->|Hne].
      * apply eq_None_not_Some in Hk. rewrite Hk.
        by rewrite decide_True by apply list_elem_of_here.
      * destruct (m !! s) eqn:Hs; [done|].
        destruct (decide (s ∈ ks)) as [Hin|Hin].
        -- by rewrite decide_True by (by apply list_elem_of_further).
        -- rewrite decide_False; [done|]. intros [?|?]%elem_of_cons; done.
Qed.

Lemma groupby_nunique_keys (df : list row) :
  (pd.groupby_nunique status project_id df).*1 = pd.group_keys status df.
Proof.
  unfold pd.groupby_nunique, pd.groupby.
  rewrite <- !list_fmap_compose. apply list_fmap_id.
Qed.

(** X12: the colours of the status distribution.  A status the dashboard
    knows keeps its colour whether or not a row carries it; any other
    status has the gray colour when some row carries it and no colour
    otherwise. *)
Theorem status_colors_lookup (df : list row) (s : string) :
  (get_status_distribution df).2 !! s
  = match known_colors !! s with
    | Some c => Some c
    | None => if bool_decide (Some s ∈ status <$> df) then Some "#A9A9A9" else None
    end.
Proof.
  unfold get_status_distribution. cbn [snd].
  rewrite foldl_set_default_color, groupby_nunique_keys.
  destruct (known_colors !! s); [done|].
  destruct (decide (s ∈ pd.group_keys status df)) as [Hs|Hs];
    rewrite elem_of_group_keys in Hs.
  - rewrite bool_decide_eq_true_2; [done|].
    apply list_elem_of_fmap. destruct Hs as (r & ? & ?). eauto.
  - rewrite bool_decide_eq_false_2; [done|].
    intros (r & ? & ?)%list_elem_of_fmap. apply Hs. eauto.
Qed.

Lemma max_by_value_spec (items : list (string * nat)) (best : string * nat) :
  max_by_value best items ∈ best :: items
  /\ forall kv, kv ∈ best :: items -> (kv.2 <= (max_by_value best items).2)%nat.
Proof.
  revert best. induction items as [|kv items IH]; intros best; simpl.
  - split; [apply list_elem_of_here|]. intros kv [->|?%elem_of_nil]%elem_of_cons; done.
  - destruct (IH (if decide (best.2 < kv.2) then kv else best)) as [Hin Hmax].
    split.
    + apply elem_of_cons in Hin as [->|Hin].
      * case_decide; [apply list_elem_of_further, list_elem_of_here
                     | apply list_elem_of_here].
      * by do 2 apply list_elem_of_further.
    + intros kv' Hkv'.
      assert (Hb : ((if decide (best.2 < kv.2) then kv else best).2
                    <= (max_by_value (if decide (best.2 < kv.2) then kv else best) items).2)%nat)
        by apply Hmax, list_elem_of_here.
      apply elem_of_cons in Hkv' as [->|[->|Hkv']%elem_of_cons].
      * case_decide; simpl in *; lia.
      * case_decide; simpl in *; lia.
      * by apply Hmax, list_elem_of_further.
Qed.

Lemma status_counts_items (df : list row) (s : string) (n : nat) :
  status_counts (calculate_kpis df) !! s = Some n
  <-> (s, n) ∈ pd.groupby_nunique status project_id df.
Proof.
  change (status_counts (calculate_kpis df))
    with (list_to_map (pd.groupby_nunique status project_id df) : gmap string nat).
  symmetry. apply elem_of_list_to_map.
  rewrite groupby_nunique_keys. apply group_keys_NoDup.
Qed.

(** X13: the status on the second card is a status of the status counts
    with its count, and no status has a larger count; the card has no
    status exactly when the counts are empty, that is when no row has a
    status. *)
Theorem status_card_is_most_common (df : list row) :
  match status_card df with
  | Some (s, n) =>
      status_counts (calculate_kpis df) !! s = Some n
      /\ forall s' n', status_counts (calculate_kpis df) !! s' = Some n' -> (n' <= n)%nat
  | None =>
      status_counts (calculate_kpis df) = ∅
      /\ Forall (λ r, status r = None) df
  end.
Proof.
  unfold status_card, most_common_status.
  destruct (pd.groupby_nunique status project_id df) as [|kv items] eqn:E.
  - split.
    + change (status_counts (calculate_kpis df))
        with (list_to_map (pd.groupby_nunique status project_id df) : gmap string nat).
      by rewrite E.
    + apply Forall_forall. intros r Hr. destruct (status r) as [s|] eqn:Hs; [|done].
      assert (Hin : s ∈ pd.group_keys status df) by (apply elem_of_group_keys; eauto).
      rewrite <- groupby_nunique_keys, E in Hin. by apply elem_of_nil in Hin.
  - destruct (max_by_value_spec items kv) as [Hin Hmax].
    destruct (max_by_value kv items) as [s n] eqn:Em. split.
    + apply status_counts_items. by rewrite E.
    + intros s' n' H'%status_counts_items. rewrite E in H'.
      by apply (Hmax (s', n')).
Qed.

Lemma status_card_example :
  status_card two_area_table = Some ("atrasado", 1%nat).
Proof. reflexivity. Qed.

End StatusExtras.

Section FormatExtras.

Lemma contains_elem_of (c : ascii) (s : string) :
  contains c s = true <-> c ∈ list_ascii_of_string s.
Proof.
  induction s as [|a s IH]; simpl.
  - split; [discriminate | by intros ?%elem_of_nil].
  - rewrite elem_of_cons. destruct (decide (a = c)) as [->|Hne].
    + split; [by left | done].
    + rewrite IH. split; [by right | intros [?|?]; congruence].
Qed.

Lemma contains_false (c : ascii) (s : string) :
  contains c s = false <-> c ∉ list_ascii_of_string s.
Proof. rewrite <- contains_elem_of. by destruct (contains c s). Qed.

Lemma elem_of_group3 (x : ascii) (l : list ascii) :
  x ∈ group3 l -> x ∈ l \/ x = ","%char.
Proof.
  remember (length l) as n eqn:Hn. revert l Hn.
  induction n as [n IH] using lt_wf_ind. intros l Hn.
  destruct l as [|a [|b [|c [|d rest]]]]; try (intros ?; by left).
  change (group3 (a :: b :: c :: d :: rest))
    with (a :: b :: c :: ","%char :: group3 (d :: rest)).
  intros Hx. repeat (apply elem_of_cons in Hx as [->|Hx]).
  - left. apply list_elem_of_here.
  - left. apply list_elem_of_further, list_elem_of_here.
  - left. do 2 apply list_elem_of_further. apply list_elem_of_here.
  - by right.
  - assert (Hlt : (length (d :: rest) < n)%nat) by (subst n; simpl; lia).
    destruct (IH _ Hlt (d :: rest) eq_refl Hx) as [Hin | ->]; [|by right].
    left. by do 3 apply list_elem_of_further.
Qed.

Lemma elem_of_rev {A} (x : A) (l : list A) : x ∈ rev l <-> x ∈ l.
Proof. rewrite !list_elem_of_In. symmetry. apply in_rev. Qed.

Lemma with_commas_plain (c : ascii) (s : string) :
  c ≠ ","%char -> contains c s = false -> contains c (with_commas s) = false.
Proof.
  intros Hc Hs. apply contains_false. unfold with_commas.
  rewrite list_ascii_of_string_of_list_ascii, elem_of_rev.
  intros H. apply elem_of_group3 in H as [Hin | E]; [|by apply Hc].
  apply (proj1 (elem_of_rev _ _)) in Hin. apply contains_false in Hs. by apply Hs.
Qed.

Lemma string_of_Z_plain (n : Z) : contains "X" (string_of_Z n) = false.
Proof.
  unfold string_of_Z.
  assert (H : forall d, contains "X" (NilEmpty.string_of_uint d) = false)
    by (intros d; induction d; simpl; done).
  destruct (N.to_uint (Z.to_N n)); try apply H. done.
Qed.

Lemma zfill_plain (w : nat) (s : string) :
  contains "X" s = false -> contains "X" (zfill w s) = false.
Proof.
  intros Hs. unfold zfill. rewrite contains_app, Hs, orb_false_r.
  apply contains_false. rewrite list_ascii_of_string_of_list_ascii.
  intros H. apply list_elem_of_In, repeat_spec in H. done.
Qed.

Lemma format_f_plain (commas : bool) (k : nat) (x : float64) :
  contains "X" (format_f commas k x) = false.
Proof.
  destruct x as [q| | |]; try done. unfold format_f.
  rewrite !contains_app.
  assert (H1 : contains "X" (if nonneg q then "" else "-") = false)
    by (by destruct (nonneg q)).
  assert (H2 : contains "X"
            (if commas
             then with_commas (string_of_Z
                    (rint ((if nonneg q then q else - q) * pow10 k)%Qc / 10 ^ Z.of_nat k))
             else string_of_Z
                    (rint ((if nonneg q then q else - q) * pow10 k)%Qc / 10 ^ Z.of_nat k))
            = false).
  { destruct commas; [apply with_commas_plain; [done|]|]; apply string_of_Z_plain. }
  rewrite H1, H2. simpl. destruct k; [done|].
  rewrite contains_app. simpl. apply zfill_plain, string_of_Z_plain.
Qed.

(** The three replacements of the currency formatter exchange periods and
    commas in a text that holds no X. *)
Lemma replace_chain_swaps (s : string) :
  contains "X" s = false ->
  replace "X" "." (replace "." "," (replace "," "X" s)) = swap_separators s.
Proof.
  induction s as [|a s IH]; [done|].
  rewrite contains_cons. destruct (decide (a = "X"%char)) as [|HX]; [discriminate|].
  intros Hs. specialize (IH Hs).
  rewrite (replace_cons "," a). cbn [swap_separators].
  destruct (decide (a = ","%char)) as [->|Hc].
  - change ("X" ++ replace "," "X" s) with (String "X" (replace "," "X" s)).
    rewrite (replace_cons "." "X"), decide_False by done.
    rewrite (replace_cons "X" "X"), decide_True by done.
    rewrite IH. done.
  - rewrite (replace_cons "." a). destruct (decide (a = "."%char)) as [->|Hp].
    + change ("," ++ replace "." "," (replace "," "X" s))
        with (String "," (replace "." "," (replace "," "X" s))).
      rewrite (replace_cons "X" ","), decide_False by done. by rewrite IH.
    + rewrite (replace_cons "X" a), decide_False by done. by rewrite IH.
Qed.

Lemma swap_separators_plain (s : string) :
  contains "X" s = false -> contains "X" (swap_separators s) = false.
Proof.
  induction s as [|a s IH]; [done|].
  rewrite contains_cons. destruct (decide (a = "X"%char)) as [|HX]; [discriminate|].
  intros Hs. cbn [swap_separators]. rewrite contains_cons, (IH Hs).
  destruct (decide (a = ","%char)); [done|].
  destruct (decide (a = "."%char)); [done|]. by rewrite decide_False.
Qed.

(** X14: for an amount that is neither missing nor zero, the currency text
    is "R$ " followed by the format [,.2f] of the amount with its periods
    and commas exchanged; the placeholder X of the exchange is not in the
    result. *)
Theorem format_currency_swaps (x : float64) :
  x ≠ NaN -> x ≠ zero ->
  format_currency (Some x) = "R$ " ++ swap_separators (format_f true 2 x)
  /\ contains "X" (format_currency (Some x)) = false.
Proof.
  intros Hnan Hzero.
  assert (E : format_currency (Some x)
              = "R$ " ++ swap_separators (format_f true 2 x)).
  { unfold format_currency.
    replace (isna (Some x)) with false by (by destruct x).
    rewrite bool_decide_eq_false_2 by congruence.
    cbn [orb default]. rewrite replace_chain_swaps; [done|].
    rewrite contains_app, format_f_plain. done. }
  split; [done|]. rewrite E, contains_app.
  by rewrite swap_separators_plain by apply format_f_plain.
Qed.

Lemma format_currency_swaps_witness :
  format_currency (Some (dec 123456789 2)) = "R$ 1.234.567,89"
  /\ contains "X" (format_currency (Some (dec 123456789 2))) = false.
Proof.
  destruct (format_currency_swaps (dec 123456789 2)) as [H1 H2].
  - discriminate.
  - apply (bool_decide_eq_false_1 (_ = _)). vm_compute. reflexivity.
  - split; [|exact H2]. rewrite H1. vm_compute. reflexivity.
Defined.

Lemma contains_replace (c : ascii) (new s : string) :
  contains c new = false -> contains c (replace c new s) = false.
Proof.
  intros Hn. induction s as [|a s IH]; [done|]. rewrite replace_cons.
  destruct (decide (a = c)) as [|Hne].
  - by rewrite contains_app, Hn, IH.
  - by rewrite contains_cons, decide_False, IH.
Qed.

(** X15: whatever the value, the percentage text holds no period and ends
    with the percent sign. *)
Theorem format_percentage_shape (v : option float64) :
  contains "." (format_percentage v) = false
  /\ exists body, format_percentage v = body ++ "%".
Proof.
  unfold format_percentage. destruct (isna v).
  - split; [done|]. by exists "0,0".
  - split; [by apply contains_replace|].
    rewrite replace_app. by eexists.
Qed.

End FormatExtras.

Section EmptyExtras.

(** X16: when no row of the raw table has an identifier, the loader returns
    the empty table, and on the empty table every indicator is zero (the
    average completion and the variance are 0.0, not NaN), there is no
    status, the department table and the cost comparison have no row, and
    the colours are those of the known statuses. *)
Theorem no_identifier_no_projects (raw : list Raw.row) :
  Forall (λ r, Raw.project_id r = None \/ Raw.project_id r = Some "") raw ->
  load_and_clean_data raw = Ok []
  /\ calculate_kpis [] = mk_kpis 0 ∅ zero zero zero zero
  /\ get_area_analysis [] = []
  /\ prepare_cost_comparison_data [] = []
  /\ get_status_distribution [] = (∅, known_colors)
  /\ status_card [] = None.
Proof.
  intros H. split; [|by repeat split].
  unfold load_and_clean_data.
  assert (Hf : filter (λ r, keep_row r = true) raw = []).
  { induction H as [|r l Hr _ IH]; [done|].
    rewrite filter_cons_False; [done|].
    rewrite keep_row_spec. intros [? ?]. by destruct Hr. }
  by rewrite Hf.
Qed.

Lemma no_identifier_no_projects_witness :
  load_and_clean_data
    [ Raw.mk None (Some "A") (Some "em dia") (CStr "abc%") (CNum zero) (CNum zero);
      Raw.mk (Some "") None None CNull CNull CNull ] = Ok [].
Proof.
  apply no_identifier_no_projects.
  apply Forall_cons. split; [by left|].
  apply Forall_cons. split; [by right | constructor].
Defined.

End EmptyExtras.

Section CostExtras.

(** X17: the cost comparison row by row, on a table without missing
    identifiers.  The row of a project holds the department and the planned
    cost of the project's first row, the sum of the actual costs of all rows
    of the project (the left merge finds an entry for every project), and
    the rounded variance of the two. *)
Theorem cost_table_rows (df : list row) :
  Forall (λ r, is_Some (project_id r)) df ->
  prepare_cost_comparison_data df
  = fmap (λ p,
            let real :=
              pd.fillna zero
                (pd.sum (valor_clean
                           <$> filter (λ r, project_id r = project_id p) df)) in
            Cost.mk (project_id p) (area p) (custo_previsto_clean p) real
              (variance_of real (custo_previsto_clean p)))
         (pd.drop_duplicates project_id df).
Proof.
  intros Hid.
  unfold prepare_cost_comparison_data, set_variance, fillna_real, merge_left,
    planned_of.
  rewrite <- !list_fmap_compose. apply Forall_fmap_ext, Forall_forall.
  intros p Hp. simpl.
  apply drop_duplicates_spec in Hp.
  rewrite Forall_forall in Hid. destruct (Hid p Hp) as [k Hk].
  rewrite groupby_sum_series, Hk, at_label_keys.
  rewrite decide_True by (apply elem_of_group_keys; eauto).
  done.
Qed.

Lemma cost_table_rows_witness :
  Cost.custo_real_total <$> prepare_cost_comparison_data two_area_table
  = [of_Z 600; of_Z 30; of_Z 600].
Proof.
  rewrite (cost_table_rows two_area_table).
  - by_eval.
  - repeat constructor; by eexists.
Defined.

End CostExtras.
